(** * HVV routes integration: coordinator, sensor projection, command dispatch

    A shallow embedding of the Python sources
      - [sensor.py]      (HVVRoutesDataUpdateCoordinator, HVVDynamicRouteSensor,
                          the sensor platform's async_setup_entry),
      - [services.py]    (handle_set_route),
      - [__init__.py]    (the integration's async_setup_entry),
      - [config_flow.py] (HVVConfigFlow.validate_auth),
    together with the properties of the specification that concern them.

    Python objects that are shared by reference (the coordinators) live in an
    explicit object store; methods are computations in a state-and-exception
    monad over the host state.  The event loop is single threaded and every
    [await] in the sources is awaited in sequence, so an awaited call is
    modelled by sequential composition. *)

From stdpp Require Import gmap strings list fin_maps.

Open Scope string_scope.
Set Warnings "-register-all".

(** ** Python exceptions *)

(** The exception classes that occur in the sources, plus
    [CancelledError] as the representative of the classes that derive from
    BaseException but not from Exception. *)
Inductive exn_class : Type :=
  | Exception
  | NameError
  | KeyError
  | IndexError
  | TypeError
  | AttributeError
  | CancelledError
  | ClientConnectionError   (* network failure raised by the transit client *)
  | ClientAuthError         (* rejected credentials, raised by the transit client *)
  | UpdateFailed
  | ConfigEntryNotReady
  | CannotConnect
  | InvalidAuth.

#[global] Instance exn_class_eq_dec : EqDecision exn_class.
Proof. solve_decision. Defined.

(** An exception object: its class, its message ([str(e)]) and the
    exception it was raised [from], if any. *)
Inductive exn : Type :=
  | Exn (cls : exn_class) (msg : string) (cause : option exn).

Definition exn_cls (e : exn) : exn_class := let 'Exn c _ _ := e in c.
Definition exn_str (e : exn) : string := let 'Exn _ m _ := e in m.
Definition exn_cause (e : exn) : option exn := let 'Exn _ _ c := e in c.

(** [issubclass c base]: every class is a subclass of itself, and every
    class except [CancelledError] derives from [Exception]. *)
Definition issubclass (c base : exn_class) : bool :=
  if decide (c = base) then true
  else match base, c with
       | Exception, CancelledError => false
       | Exception, _ => true
       | _, _ => false
       end.

Definition isinstance (e : exn) (base : exn_class) : bool :=
  issubclass (exn_cls e) base.

(** The outcome of running a piece of Python: a value or a raised
    exception. *)
Inductive result (A : Type) : Type :=
  | Ok (a : A)
  | Raise (e : exn).
Arguments Ok {A} a.
Arguments Raise {A} e.

Definition rbind {A B} (r : result A) (f : A → result B) : result B :=
  match r with
  | Ok a => f a
  | Raise e => Raise e
  end.

(** ** Python values (the duck-typed payload of the transit client) *)

Inductive value : Type :=
  | VNone
  | VBool (b : bool)
  | VInt (z : Z)
  | VStr (s : string)
  | VList (l : list value)
  | VDict (d : list (string * value)).

(** Truth value of an object: [None], [False], [0], the empty string,
    [[]] and [{}] are false. *)
Definition truthy (v : value) : bool :=
  match v with
  | VNone => false
  | VBool b => b
  | VInt z => negb (Z.eqb z 0)
  | VStr s => negb (String.eqb s EmptyString)
  | VList l => match l with [] => false | _ => true end
  | VDict d => match d with [] => false | _ => true end
  end.

(** Lookup in a dict kept as an association list; the first binding of a
    key is the one the dict holds. *)
Fixpoint assoc (k : string) (d : list (string * value)) : option value :=
  match d with
  | [] => None
  | (k', v) :: d' => if String.eqb k k' then Some v else assoc k d'
  end.

(** [o.get(key, default)]: only a dict has a [get] method. *)
Definition py_get (o : value) (key : string) (default : value) : result value :=
  match o with
  | VDict d => Ok (match assoc key d with Some v => v | None => default end)
  | _ => Raise (Exn AttributeError "object has no attribute 'get'" None)
  end.

(** [o[0]]: first element of a list, first character of a string;
    IndexError when empty, KeyError on a dict (its keys are strings),
    TypeError on anything that is not subscriptable. *)
Definition py_index0 (o : value) : result value :=
  match o with
  | VList (x :: _) => Ok x
  | VList [] => Raise (Exn IndexError "list index out of range" None)
  | VStr (String a _) => Ok (VStr (String a EmptyString))
  | VStr EmptyString => Raise (Exn IndexError "string index out of range" None)
  | VDict _ => Raise (Exn KeyError "0" None)
  | _ => Raise (Exn TypeError "object is not subscriptable" None)
  end.

(** Truth value of an optional string attribute ([None] or a [str]). *)
Definition truthy_opt (o : option string) : bool :=
  match o with
  | None => false
  | Some s => negb (String.eqb s EmptyString)
  end.

Definition of_opt (o : option string) : value :=
  match o with
  | None => VNone
  | Some s => VStr s
  end.

(** ** Host state and object store *)

(** The query handed to the transit client ([payload] in
    [_async_update_data]). *)
Record route_request : Type := {
  start_name : string;
  start_city : string;
  start_type : string;
  dest_name : string;
  dest_city : string;
  dest_type : string;
  time_date : string;
  time_time : string;
  timeIsDeparture : bool;
  realtime : string
}.

(** Attributes of an [HVVRoutesDataUpdateCoordinator] object.  The first
    seven are set by [__init__] in sensor.py; [data],
    [last_update_success] and [last_exception] are the attributes of the
    host's DataUpdateCoordinator base class that the refresh writes. *)
Record Coordinator : Type := {
  _username : string;
  _password : string;
  _home_station : string;
  _home_city : string;
  _dest_station : option string;
  _dest_city : option string;
  _departure_time : option string;
  data : value;
  last_update_success : bool;
  last_exception : option exn
}.

(** A config entry of the host: its id and its persisted [data] dict. *)
Record ConfigEntry : Type := {
  entry_id : string;
  entry_data : gmap string string
}.

(** A call of the set_route service: the entries of [call.data]; [None] is
    an absent key.  ['entity_id'] holds one identifier or a list. *)
Inductive entity_ids : Type :=
  | One (entity_id : string)
  | Many (ids : list string).

Record ServiceCall : Type := {
  call_entity_id : option entity_ids;
  call_destination_station : option string;
  call_destination_city : option string;
  call_departure_time : option string
}.

(** Attribute assignments on a coordinator. *)
Definition assign_destination (station city : option string) (c : Coordinator)
  : Coordinator :=
  {| _username := _username c; _password := _password c;
     _home_station := _home_station c; _home_city := _home_city c;
     _dest_station := station; _dest_city := city;
     _departure_time := _departure_time c;
     data := data c; last_update_success := last_update_success c;
     last_exception := last_exception c |}.

Definition assign_departure_time (time : option string) (c : Coordinator)
  : Coordinator :=
  {| _username := _username c; _password := _password c;
     _home_station := _home_station c; _home_city := _home_city c;
     _dest_station := _dest_station c; _dest_city := _dest_city c;
     _departure_time := time;
     data := data c; last_update_success := last_update_success c;
     last_exception := last_exception c |}.

Definition assign_update (d : value) (success : bool) (e : option exn)
    (c : Coordinator) : Coordinator :=
  {| _username := _username c; _password := _password c;
     _home_station := _home_station c; _home_city := _home_city c;
     _dest_station := _dest_station c; _dest_city := _dest_city c;
     _departure_time := _departure_time c;
     data := d; last_update_success := success;
     last_exception := e |}.

Definition assign_update_failed (e : exn) (c : Coordinator) : Coordinator :=
  assign_update (data c) false (Some e) c.

(** An [HVVDynamicRouteSensor] object: the reference to the coordinator it
    subscribes to, and its display attributes. *)
Record HVVDynamicRouteSensor : Type := {
  coordinator : nat;
  _attr_name : string;
  _attr_unique_id : string;
  _attr_icon : string
}.

Inductive level : Type := WARNING | ERROR | INFO.

(** The host: the store of coordinator objects (a reference is an index),
    [hass.data[DOMAIN]] when the key exists together with its
    ['coordinators'] dict from config-entry id to coordinator reference,
    the entity registry (entity id to config-entry id), the entities added
    to the sensor platform, whether the set_route service is registered,
    the queries the transit client has received, and the log records of
    level warning and above (debug records are not kept). *)
Record Hass : Type := {
  objects : list Coordinator;
  domain_data : option (gmap string nat);
  entity_registry : gmap string (option string);
  entities : gmap string HVVDynamicRouteSensor;
  services : bool;
  gti_calls : list route_request;
  records : list (level * string)
}.

(** Functional updates of one field of the host state. *)
Definition set_objects (f : list Coordinator → list Coordinator) (h : Hass)
  : Hass :=
  {| objects := f (objects h); domain_data := domain_data h;
     entity_registry := entity_registry h; entities := entities h;
     services := services h; gti_calls := gti_calls h;
     records := records h |}.

Definition add_record (r : level * string) (h : Hass) : Hass :=
  {| objects := objects h; domain_data := domain_data h;
     entity_registry := entity_registry h; entities := entities h;
     services := services h; gti_calls := gti_calls h;
     records := records h ++ [r] |}.

Definition add_call (q : route_request) (h : Hass) : Hass :=
  {| objects := objects h; domain_data := domain_data h;
     entity_registry := entity_registry h; entities := entities h;
     services := services h; gti_calls := gti_calls h ++ [q];
     records := records h |}.

Definition register_entity (entity_id config_entry_id : string)
    (sensor : HVVDynamicRouteSensor) (h : Hass) : Hass :=
  {| objects := objects h; domain_data := domain_data h;
     entity_registry := <[entity_id := Some config_entry_id]> (entity_registry h);
     entities := <[entity_id := sensor]> (entities h);
     services := services h; gti_calls := gti_calls h;
     records := records h |}.

(** ** The monad of stateful, fallible computations *)

Definition M (A : Type) : Type := Hass → result A * Hass.

Definition ret {A} (a : A) : M A := fun h => (Ok a, h).

Definition raise {A} (e : exn) : M A := fun h => (Raise e, h).

Definition bind {A B} (m : M A) (f : A → M B) : M B :=
  fun h =>
    match m h with
    | (Ok a, h') => f a h'
    | (Raise e, h') => (Raise e, h')
    end.

Notation "'let*' x ':=' m 'in' k" := (bind m (fun x => k))
  (at level 10, x name, m at level 100, k at level 200, only parsing).
Notation "m '>>' k" := (bind m (fun _ => k))
  (at level 90, right associativity, only parsing).

(** [try: body / except Exception as e: handler e].  What the body did to
    the state before it raised stays done; exceptions that do not derive
    from Exception pass through. *)
Definition try_except {A} (body : M A) (handler : exn → M A) : M A :=
  fun h =>
    match body h with
    | (Ok a, h') => (Ok a, h')
    | (Raise e, h') =>
        if isinstance e Exception then handler e h' else (Raise e, h')
    end.

Definition lift {A} (r : result A) : M A := fun h => (r, h).

Definition get_hass : M Hass := fun h => (Ok h, h).

Definition log (l : level) (msg : string) : M unit :=
  fun h => (Ok tt, add_record (l, msg) h).

(** [for x in xs: body x], an exception ends the loop. *)
Fixpoint for_each {A} (xs : list A) (body : A → M unit) : M unit :=
  match xs with
  | [] => ret tt
  | x :: xs' => body x >> for_each xs' body
  end.

(** Reading the object behind a reference.  References are created by
    [new_coordinator] only and objects are never freed; a reference that
    denotes no object has no attributes. *)
Definition deref (r : nat) : M Coordinator :=
  fun h =>
    match objects h !! r with
    | Some c => (Ok c, h)
    | None => (Raise (Exn AttributeError "no such object" None), h)
    end.

(** Attribute assignment on the object behind a reference. *)
Definition update (r : nat) (f : Coordinator → Coordinator) : M unit :=
  fun h =>
    match objects h !! r with
    | Some c => (Ok tt, set_objects <[r := f c]> h)
    | None => (Raise (Exn AttributeError "no such object" None), h)
    end.

(** Allocation of a new object; its reference is the next free index. *)
Definition alloc (c : Coordinator) : M nat :=
  fun h =>
    (Ok (length (objects h)), set_objects (fun l => (l ++ [c])%list) h).

(** ** The transit client *)

(** The ways the transit client fails: a connectivity error, an
    authentication error, or an unexpected error; each is raised as an
    exception that derives from Exception. *)
Inductive failure : Type := Connectivity | Authentication | Unexpected.

Definition failure_class (f : failure) : exn_class :=
  match f with
  | Connectivity => ClientConnectionError
  | Authentication => ClientAuthError
  | Unexpected => Exception
  end.

(** What a query to the transit client comes back with: the decoded
    response, or a failure with its message. *)
Inductive answer : Type :=
  | Response (v : value)
  | Failure (f : failure) (msg : string).

Definition result_of_answer (a : answer) : result value :=
  match a with
  | Response v => Ok v
  | Failure f msg => Raise (Exn (failure_class f) msg None)
  end.

(** ** Credential validation (config_flow.py) *)

Section ConfigFlow.

(** The auth probe [gti.init()] of the transit client, an external
    collaborator: any computation, given the credentials. *)
Variable gti_init : string → string → M unit.

(** An [except name:] clause looks the name up when an exception is being
    matched; a name that is not bound in the module raises NameError in
    place of the exception being handled. *)
Definition except_matches (globals : gmap string exn_class) (name : string)
    (e : exn) : result bool :=
  match globals !! name with
  | Some cls => Ok (isinstance e cls)
  | None =>
      Raise (Exn NameError ("name '" ++ name ++ "' is not defined") None)
  end.

(** [try: body] followed by [except name: handler] clauses, tried in
    order. *)
Fixpoint try_clauses {A} (globals : gmap string exn_class)
    (clauses : list (string * M A)) (e : exn) : M A :=
  match clauses with
  | [] => raise e
  | (name, handler) :: rest =>
      match except_matches globals name e with
      | Raise ne => raise ne
      | Ok true => handler
      | Ok false => try_clauses globals rest e
      end
  end.

Definition try_except_named {A} (globals : gmap string exn_class)
    (body : M A) (clauses : list (string * M A)) : M A :=
  fun h =>
    match body h with
    | (Ok a, h') => (Ok a, h')
    | (Raise e, h') => try_clauses globals clauses e h'
    end.

(** The exception classes bound in the module config_flow.py: the two it
    defines and the builtin.  It neither defines nor imports
    [AuthenticationError] and [NetworkError]. *)
Definition config_flow_globals : gmap string exn_class :=
  {[ "Exception" := Exception;
     "CannotConnect" := CannotConnect;
     "InvalidAuth" := InvalidAuth ]}.

(** [HVVConfigFlow.validate_auth], in a module namespace [globals]. *)
Definition validate_auth (globals : gmap string exn_class)
    (username password : string) : M unit :=
  try_except
    (try_except_named globals
       (gti_init username password)
       [("AuthenticationError",
         log ERROR "Specific authentication failure" >>
         raise (Exn InvalidAuth EmptyString None));
        ("NetworkError",
         log ERROR "Network connection issue" >>
         raise (Exn CannotConnect EmptyString None))])
    (fun e =>
       log ERROR ("Unexpected authentication error: " ++ exn_str e) >>
       raise (Exn InvalidAuth EmptyString None)).

End ConfigFlow.

(** ** The coordinator (sensor.py) *)

Definition DOMAIN : string := "hvv_routes".

Section Integration.

(** The transit client is an external collaborator: [getRoute] is any
    function from the queries it has already received and the present
    query to an answer. *)
Variable getRoute : list route_request → route_request → answer.

(** The host's entity registry gives an entity with a given unique id its
    entity id. *)
Variable entity_id_for : string → string.

(** [await gti.getRoute(payload)]: the query is recorded, then answered. *)
Definition gti_getRoute (payload : route_request) : M value :=
  fun h => (result_of_answer (getRoute (gti_calls h) payload), add_call payload h).

(** [HVVRoutesDataUpdateCoordinator.__init__]: the attributes of a new
    coordinator ([data] is [None] and [last_update_success] is [True] in
    the host's base class). *)
Definition initial_coordinator (username password home_station home_city : string)
  : Coordinator :=
  {| _username := username; _password := password;
     _home_station := home_station; _home_city := home_city;
     _dest_station := None; _dest_city := None;
     _departure_time := None;
     data := VNone; last_update_success := true;
     last_exception := None |}.

Definition new_coordinator (username password home_station home_city : string)
  : M nat :=
  alloc (initial_coordinator username password home_station home_city).

(** The query [payload] that [_async_update_data] builds from the
    attributes of the coordinator. *)
Definition payload_of (c : Coordinator) : route_request :=
  {| start_name := _home_station c;
     start_city := _home_city c;
     start_type := "STATION";
     dest_name := default EmptyString (_dest_station c);
     dest_city := default EmptyString (_dest_city c);
     dest_type := "STATION";
     time_date := "today";
     time_time := if truthy_opt (_departure_time c)
                  then default EmptyString (_departure_time c)
                  else "currenttime";
     timeIsDeparture := true;
     realtime := "REALTIME" |}.

(** [HVVRoutesDataUpdateCoordinator._async_update_data]. *)
Definition _async_update_data (self : nat) : M value :=
  let* c := deref self in
  if negb (forallb truthy_opt [_dest_station c; _dest_city c]) then
    ret VNone
  else
    try_except
      (let payload := payload_of c in
       let* route_data := gti_getRoute payload in
       if negb (truthy route_data) then
         log ERROR "No route data received" >>
         raise (Exn UpdateFailed "No route data received" None)
       else
         ret route_data)
      (fun err =>
         log ERROR "Error fetching route data" >>
         raise (Exn UpdateFailed ("Error: " ++ exn_str err) (Some err))).

(** Modelled from the spec: the refresh of the host's DataUpdateCoordinator
    base class, which is not under src/.  It runs [_async_update_data]; a
    returned payload replaces [data] and marks the update successful; a
    failure (the typed update-failure or any other Exception) is stored in
    [last_exception], marks the update failed and leaves [data] as it was;
    it does not escape the refresh. *)
Definition async_refresh (self : nat) : M unit :=
  fun h =>
    match _async_update_data self h with
    | (Ok d, h') =>
        update self (fun c => assign_update d true (last_exception c) c) h'
    | (Raise e, h') =>
        if isinstance e Exception then
          update self (assign_update_failed e) h'
        else (Raise e, h')
    end.

(** Modelled from the spec: the mandatory first refresh of the host's
    DataUpdateCoordinator (not under src/): a refresh, after which a failed
    update is reported as "not ready, retry later". *)
Definition async_config_entry_first_refresh (self : nat) : M unit :=
  async_refresh self >>
  let* c := deref self in
  if last_update_success c then ret tt
  else raise (Exn ConfigEntryNotReady EmptyString (last_exception c)).

(** [HVVRoutesDataUpdateCoordinator.set_destination]. *)
Definition set_destination (self : nat) (station city : option string)
  : M unit :=
  update self (assign_destination station city) >>
  async_refresh self.

(** [HVVRoutesDataUpdateCoordinator.set_departure_time]. *)
Definition set_departure_time (self : nat) (time : string) : M unit :=
  update self (assign_departure_time (Some time)) >>
  async_refresh self.

(** ** The sensor (sensor.py) *)

(** [HVVDynamicRouteSensor.state]. *)
Definition state (self : HVVDynamicRouteSensor) : M value :=
  try_except
    (let* c := deref (coordinator self) in
     if negb (truthy (data c)) then ret (VStr "No Destination Set")
     else
       let* schedules := lift (py_get (data c) "realtimeSchedules" (VList [])) in
       if truthy schedules then
         let* first := lift (py_index0 schedules) in
         lift (py_get first "time" (VStr "Unknown"))
       else ret (VStr "No Routes Found"))
    (fun e =>
       log ERROR ("Error getting state: " ++ exn_str e) >>
       ret (VStr "Error")).

(** One pass of the loop body of [extra_state_attributes]: the [route]
    dict of one schedule. *)
Definition route_of (schedule : value) : result value :=
  rbind (py_get schedule "plannedDepartureTime" VNone) (fun departure =>
  rbind (py_get schedule "plannedArrivalTime" VNone) (fun arrival =>
  rbind (py_get schedule "time" VNone) (fun duration =>
  rbind (py_get schedule "scheduleElements" (VList [VDict []])) (fun legs =>
  rbind (py_index0 legs) (fun leg =>
  rbind (py_get leg "line" (VDict [])) (fun line =>
  rbind (py_get line "name" VNone) (fun name =>
  rbind (py_get schedule "scheduleElements" (VList [VDict []])) (fun legs' =>
  rbind (py_index0 legs') (fun leg' =>
  rbind (py_get leg' "line" (VDict [])) (fun line' =>
  rbind (py_get line' "direction" VNone) (fun direction =>
  Ok (VDict [("departure_time", departure);
             ("arrival_time", arrival);
             ("duration", duration);
             ("line", name);
             ("direction", direction)])))))))))))).

(** The keys of a dict in insertion order (a shadowed binding is not part
    of the dict). *)
Fixpoint dict_keys (seen : list string) (d : list (string * value))
  : list string :=
  match d with
  | [] => []
  | (k, _) :: d' =>
      if bool_decide (k ∈ seen) then dict_keys seen d'
      else k :: dict_keys (k :: seen) d'
  end.

Fixpoint chars (s : string) : list value :=
  match s with
  | EmptyString => []
  | String a s' => VStr (String a EmptyString) :: chars s'
  end.

(** [for x in o]: the elements of a list, the keys of a dict, the
    characters of a string; anything else is not iterable. *)
Definition py_iter (o : value) : result (list value) :=
  match o with
  | VList l => Ok l
  | VDict d => Ok (VStr <$> dict_keys [] d)
  | VStr s => Ok (chars s)
  | _ => Raise (Exn TypeError "object is not iterable" None)
  end.

(** The loop of [extra_state_attributes]: [routes.append(route)] for every
    schedule in turn; the first exception ends it. *)
Fixpoint routes_of (schedules : list value) : result (list value) :=
  match schedules with
  | [] => Ok []
  | schedule :: rest =>
      rbind (route_of schedule) (fun route =>
      rbind (routes_of rest) (fun routes => Ok (route :: routes)))
  end.

Definition config_echo (c : Coordinator) : list (string * value) :=
  [("home_station", VStr (_home_station c));
   ("home_city", VStr (_home_city c));
   ("destination_station", of_opt (_dest_station c));
   ("destination_city", of_opt (_dest_city c));
   ("departure_time", of_opt (_departure_time c))].

(** [HVVDynamicRouteSensor.extra_state_attributes]. *)
Definition extra_state_attributes (self : HVVDynamicRouteSensor) : M value :=
  try_except
    (let* c := deref (coordinator self) in
     if negb (truthy (data c)) then ret (VDict (config_echo c))
     else
       let* schedules := lift (py_get (data c) "realtimeSchedules" (VList [])) in
       let* schedules := lift (py_iter schedules) in
       let* routes := lift (routes_of schedules) in
       ret (VDict (config_echo c ++ [("routes", VList routes)])))
    (fun e =>
       log ERROR ("Error getting attributes: " ++ exn_str e) >>
       ret (VDict [])).

Definition CONF_USERNAME : string := "username".
Definition CONF_PASSWORD : string := "password".

(** [d[key]] on the data of a config entry. *)
Definition subscript (d : gmap string string) (key : string) : M string :=
  match d !! key with
  | Some v => ret v
  | None => raise (Exn KeyError key None)
  end.

(** Modelled from the spec: the host's [async_add_entities] (not under
    src/): each entity is added to the platform and entered in the entity
    registry under the entity id the registry gives its unique id,
    together with the id of the config entry that owns it. *)
Definition async_add_entities (config_entry : ConfigEntry)
    (new_entities : list HVVDynamicRouteSensor) : M unit :=
  for_each new_entities (fun sensor h =>
    (Ok tt, register_entity (entity_id_for (_attr_unique_id sensor))
              (entry_id config_entry) sensor h)).

(** [async_setup_entry] of sensor.py. *)
Definition sensor_async_setup_entry (config_entry : ConfigEntry) : M unit :=
  try_except
    (let* username := subscript (entry_data config_entry) CONF_USERNAME in
     let* password := subscript (entry_data config_entry) CONF_PASSWORD in
     let* home_station := subscript (entry_data config_entry) "home_station" in
     let* home_city := subscript (entry_data config_entry) "home_city" in
     let* coordinator :=
       new_coordinator username password home_station home_city in
     let* home_station' := subscript (entry_data config_entry) "home_station" in
     let sensor :=
       {| coordinator := coordinator;
          _attr_name := "HVV Route from " ++ home_station';
          _attr_unique_id := "hvv_route_" ++ entry_id config_entry;
          _attr_icon := "mdi:bus-clock" |} in
     async_config_entry_first_refresh coordinator >>
     async_add_entities config_entry [sensor])
    (fun e =>
       log ERROR ("Failed to setup sensor: " ++ exn_str e) >>
       raise (Exn ConfigEntryNotReady ("Setup failed: " ++ exn_str e) None)).

(** ** The route-setting command (services.py) *)

(** [str(x)] of an optional string, as an f-string prints it. *)
Definition fmt (o : option string) : string := default "None" o.

(** [hass.data.get(DOMAIN, {}).get('coordinators', {}).get(config_entry_id)]. *)
Definition lookup_coordinator (h : Hass) (config_entry_id : option string)
  : option nat :=
  match domain_data h, config_entry_id with
  | Some coordinators, Some k => coordinators !! k
  | _, _ => None
  end.

(** The body of the [for] loop of [handle_set_route] for one identifier,
    with its [try] / [except Exception]. *)
Definition set_route_for (destination_station destination_city : option string)
    (departure_time : string) (entity_id : string) : M unit :=
  try_except
    (let* hass := get_hass in
     match entity_registry hass !! entity_id with
     | None => log WARNING ("No entity found for " ++ entity_id)
     | Some config_entry_id =>
         match lookup_coordinator hass config_entry_id with
         | None => log WARNING ("No coordinator found for " ++ entity_id)
         | Some coordinator =>
             set_destination coordinator destination_station destination_city >>
             if truthy (VStr departure_time) then
               set_departure_time coordinator departure_time >>
               log INFO ("Route set for " ++ entity_id ++ ": "
                         ++ fmt destination_station ++ ", "
                         ++ fmt destination_city)
             else ret tt
         end
     end)
    (fun e =>
       log ERROR ("Error setting route for " ++ entity_id ++ ": " ++ exn_str e)).

(** The identifiers a call targets: [call.data.get('entity_id', [])], a
    single string made a one-element list. *)
Definition target_ids (call : ServiceCall) : list string :=
  match call_entity_id call with
  | None => []
  | Some (One entity_id) => [entity_id]
  | Some (Many ids) => ids
  end.

(** [handle_set_route]. *)
Definition handle_set_route (call : ServiceCall) : M unit :=
  let entity_ids := target_ids call in
  let destination_station := call_destination_station call in
  let destination_city := call_destination_city call in
  let departure_time := default "currenttime" (call_departure_time call) in
  for_each entity_ids
    (set_route_for destination_station destination_city departure_time).

(** [async_setup_services] / [register_services]: the handler is
    registered with the host under the name set_route. *)
Definition register_services : M unit :=
  fun h =>
    (Ok tt,
     {| objects := objects h; domain_data := domain_data h;
        entity_registry := entity_registry h; entities := entities h;
        services := true; gti_calls := gti_calls h;
        records := records h |}).

(** ** Instance setup (__init__.py) *)

(** [hass.data.setdefault(DOMAIN, {})] followed by
    [hass.data[DOMAIN].setdefault('coordinators', {})[entry_id] = coordinator]. *)
Definition store_coordinator (entry_id : string) (coordinator : nat) : M unit :=
  fun h =>
    (Ok tt,
     {| objects := objects h;
        domain_data := Some (<[entry_id := coordinator]> (default ∅ (domain_data h)));
        entity_registry := entity_registry h; entities := entities h;
        services := services h; gti_calls := gti_calls h;
        records := records h |}).

(** Modelled from the spec: the host's [async_forward_entry_setups] (not
    under src/) runs the setup of the sensor platform for the entry; a
    failure of the platform is logged by the host and does not reach the
    caller. *)
Definition async_forward_entry_setups (entry : ConfigEntry) : M unit :=
  try_except (sensor_async_setup_entry entry)
    (fun e => log ERROR ("Error while setting up hvv_routes platform for sensor: "
                         ++ exn_str e)).

(** [async_setup_entry] of __init__.py. *)
Definition async_setup_entry (entry : ConfigEntry) : M bool :=
  try_except
    (let* username := subscript (entry_data entry) CONF_USERNAME in
     let* password := subscript (entry_data entry) CONF_PASSWORD in
     let home_station := entry_data entry !! "home_station" in
     let home_city := entry_data entry !! "home_city" in
     if negb (forallb truthy_opt
                [Some username; Some password; home_station; home_city]) then
       log ERROR "Missing configuration parameters" >>
       ret false
     else
       let* coordinator :=
         new_coordinator username password
           (default EmptyString home_station) (default EmptyString home_city) in
       async_config_entry_first_refresh coordinator >>
       store_coordinator (entry_id entry) coordinator >>
       async_forward_entry_setups entry >>
       register_services >>
       ret true)
    (fun err =>
       log ERROR ("Error setting up HVV integration: " ++ exn_str err) >>
       raise (Exn ConfigEntryNotReady
                ("Could not connect to HVV: " ++ exn_str err) (Some err))).

(** ** Instance teardown (__init__.py) *)

(** The host decides whether the platforms of an entry unload. *)
Variable platforms_unload : ConfigEntry → Hass → bool.

(** Modelled from the spec: the host's [async_unload_platforms] (not under
    src/): when the platforms of the entry unload, the entity of the entry
    is removed from the sensor platform; its entry in the entity registry
    stays.  The result says whether they unloaded. *)
Definition async_unload_platforms (entry : ConfigEntry) : M bool :=
  fun h =>
    if platforms_unload entry h then
      (Ok true,
       {| objects := objects h; domain_data := domain_data h;
          entity_registry := entity_registry h;
          entities :=
            delete (entity_id_for ("hvv_route_" ++ entry_id entry)) (entities h);
          services := services h; gti_calls := gti_calls h;
          records := records h |})
    else (Ok false, h).

Definition set_domain_data (d : option (gmap string nat)) : M unit :=
  fun h =>
    (Ok tt,
     {| objects := objects h; domain_data := d;
        entity_registry := entity_registry h; entities := entities h;
        services := services h; gti_calls := gti_calls h;
        records := records h |}).

(** [async_unload_entry].  [hass.data[DOMAIN]] raises KeyError when the
    key is absent; [pop(entry_id, None)] removes the coordinator of the
    entry if there is one; when no coordinator is left the key DOMAIN is
    removed as well. *)
Definition async_unload_entry (entry : ConfigEntry) : M bool :=
  let* unload_ok := async_unload_platforms entry in
  (if unload_ok then
     let* hass := get_hass in
     match domain_data hass with
     | None => raise (Exn KeyError DOMAIN None)
     | Some coordinators =>
         let coordinators' := delete (entry_id entry) coordinators in
         if bool_decide (coordinators' = ∅) then set_domain_data None
         else set_domain_data (Some coordinators')
     end
   else ret tt) >>
  ret unload_ok.

(** [async_setup] of __init__.py. *)
Definition async_setup : M bool := ret true.

(** ** The config flow and the options flow (config_flow.py) *)

(** What a step of a flow hands back to the host: a form to show, with
    the required fields of its schema (and the default of each, if any)
    and the errors, or a config entry to create. *)
Inductive FlowResult : Type :=
  | ShowForm (step_id : string) (data_schema : list (string * option string))
      (errors : gmap string string)
  | CreateEntry (title : string) (entry_data : gmap string string).

(** A step of the config flow runs on the host and on the [auth_data]
    attribute of the flow object; what it assigned before it raised stays
    assigned. *)
Definition Flow (A : Type) : Type :=
  gmap string string → Hass → result A * (gmap string string * Hass).

Definition fret {A} (a : A) : Flow A := fun auth h => (Ok a, (auth, h)).

Definition fbind {A B} (m : Flow A) (f : A → Flow B) : Flow B :=
  fun auth h =>
    match m auth h with
    | (Ok a, (auth', h')) => f a auth' h'
    | (Raise e, st) => (Raise e, st)
    end.

(** A computation on the host, run inside a step. *)
Definition on_host {A} (m : M A) : Flow A :=
  fun auth h => let (r, h') := m h in (r, (auth, h')).

(** [self.auth_data = d]. *)
Definition set_auth_data (d : gmap string string) : Flow unit :=
  fun _ h => (Ok tt, (d, h)).

Definition get_auth_data : Flow (gmap string string) :=
  fun auth h => (Ok auth, (auth, h)).

(** The [except name as e: handler e] clauses of a [try] in a step, tried
    in order. *)
Fixpoint flow_clauses {A} (globals : gmap string exn_class)
    (clauses : list (string * (exn → Flow A))) (e : exn) : Flow A :=
  match clauses with
  | [] => fun auth h => (Raise e, (auth, h))
  | (name, handler) :: rest =>
      match except_matches globals name e with
      | Raise ne => fun auth h => (Raise ne, (auth, h))
      | Ok true => handler e
      | Ok false => flow_clauses globals rest e
      end
  end.

Definition flow_try {A} (globals : gmap string exn_class)
    (body : Flow A) (clauses : list (string * (exn → Flow A))) : Flow A :=
  fun auth h =>
    match body auth h with
    | (Ok a, st) => (Ok a, st)
    | (Raise e, (auth', h')) => flow_clauses globals clauses e auth' h'
    end.

(** [except (name, ...) as e:] evaluates every name of the tuple, then
    matches the exception against the classes. *)
Fixpoint except_matches_any (globals : gmap string exn_class)
    (names : list string) (e : exn) : result bool :=
  match names with
  | [] => Ok false
  | name :: rest =>
      rbind (except_matches globals name e) (fun b =>
      rbind (except_matches_any globals rest e) (fun b' => Ok (b || b')))
  end.

Section Flows.

Variable gti_init : string → string → M unit.

(** [HVVConfigFlow.async_step_home_location]. *)
Definition async_step_home_location (user_input : option (gmap string string))
  : Flow FlowResult :=
  match user_input with
  | Some user_input =>
      fbind get_auth_data (fun auth_data =>
      fbind (on_host (subscript user_input "home_station")) (fun home_station =>
      fbind (on_host (subscript user_input "home_city")) (fun home_city =>
      let full_config :=
        <["home_city" := home_city]>
          (<["home_station" := home_station]> auth_data) in
      fbind (on_host (subscript user_input "home_station")) (fun home_station' =>
      fret (CreateEntry ("HVV Routes: " ++ home_station') full_config)))))
  | None =>
      fret (ShowForm "home_location"
              [("home_station", None); ("home_city", None)] ∅)
  end.

(** [HVVConfigFlow.async_step_user].  The names in its [except] clauses
    are those of the two classes the module defines and of the builtin. *)
Definition async_step_user (user_input : option (gmap string string))
  : Flow FlowResult :=
  let show_form errors :=
    fret (ShowForm "user" [(CONF_USERNAME, None); (CONF_PASSWORD, None)]
            errors) in
  match user_input with
  | Some user_input =>
      flow_try config_flow_globals
        (fbind (on_host (subscript user_input CONF_USERNAME)) (fun username =>
         fbind (on_host (subscript user_input CONF_PASSWORD)) (fun password =>
         fbind (on_host (validate_auth gti_init config_flow_globals
                           username password)) (fun _ =>
         fbind (on_host (subscript user_input CONF_USERNAME)) (fun username' =>
         fbind (on_host (subscript user_input CONF_PASSWORD)) (fun password' =>
         fbind (set_auth_data {[ CONF_USERNAME := username';
                                 CONF_PASSWORD := password' ]}) (fun _ =>
         async_step_home_location None)))))))
        [("InvalidAuth", fun _ => show_form {[ "base" := "invalid_auth" ]});
         ("CannotConnect", fun _ => show_form {[ "base" := "cannot_connect" ]});
         ("Exception", fun e =>
            fbind (on_host (log ERROR ("Unexpected error: " ++ exn_str e)))
              (fun _ => show_form {[ "base" := "unknown" ]}))]
  | None => show_form ∅
  end.

(** [HVVConfigFlow.validate_auth(username, password)] as
    [HVVOptionsFlow.async_step_init] calls it: the attribute is taken from
    the class, so it is the plain function of the three parameters [self],
    [username] and [password], and the call with two arguments raises
    TypeError before the body runs. *)
Definition validate_auth_from_class (username password : string) : M unit :=
  raise (Exn TypeError
           "validate_auth() missing 1 required positional argument: 'password'"
           None).

(** [HVVOptionsFlow.async_step_init], for the options flow of
    [config_entry]. *)
Definition async_step_init (config_entry : ConfigEntry)
    (user_input : option (gmap string string)) : M FlowResult :=
  let field key :=
    (key, Some (default EmptyString (entry_data config_entry !! key))) in
  let show_form errors :=
    ret (ShowForm "init"
           [field CONF_USERNAME; field CONF_PASSWORD;
            field "home_station"; field "home_city"] errors) in
  match user_input with
  | Some user_input =>
      fun h =>
        match (let* username := subscript user_input CONF_USERNAME in
               let* password := subscript user_input CONF_PASSWORD in
               validate_auth_from_class username password >>
               ret (CreateEntry EmptyString user_input)) h with
        | (Ok a, h') => (Ok a, h')
        | (Raise e, h') =>
            match except_matches_any config_flow_globals
                    ["CannotConnect"; "InvalidAuth"] e with
            | Raise ne => (Raise ne, h')
            | Ok true => show_form {[ "base" := exn_str e ]} h'
            | Ok false => (Raise e, h')
            end
        end
  | None => show_form ∅
  end.

End Flows.

(** ** Definitions used in the statements *)

(** The value the [try] body of [state] computes from a payload. *)
Definition state_of (d : value) : result value :=
  if negb (truthy d) then Ok (VStr "No Destination Set")
  else
    rbind (py_get d "realtimeSchedules" (VList [])) (fun schedules =>
    if truthy schedules then
      rbind (py_index0 schedules) (fun first =>
      py_get first "time" (VStr "Unknown"))
    else Ok (VStr "No Routes Found")).

(** What the route-setting command may have done to the host between two
    states [h] and [h'] when it was called with destination (s, c) and
    departure time t: registry, coordinator storage and entities are as
    they were,
    log records were only added, no object was created, and every
    coordinator either kept its destination or has destination (s, c), and
    either kept its departure time or, t being non-empty, has t. *)
Definition dispatched (s c : option string) (t : string) (h h' : Hass) : Prop :=
  entity_registry h' = entity_registry h ∧
  domain_data h' = domain_data h ∧
  entities h' = entities h ∧
  (∀ x, x ∈ records h → x ∈ records h') ∧
  (∀ r, objects h !! r = None → objects h' !! r = None) ∧
  (∀ r co, objects h !! r = Some co →
     ∃ co', objects h' !! r = Some co' ∧
       (_dest_station co' = _dest_station co ∧ _dest_city co' = _dest_city co
        ∨ _dest_station co' = s ∧ _dest_city co' = c) ∧
       (_departure_time co' = _departure_time co
        ∨ t ≠ EmptyString ∧ _departure_time co' = Some t)).

(** What is observable in the host state [h'] after the command, called
    in state [h], has dealt with the identifier [entity_id]: a warning when
    it does not resolve, an error record when its processing raised, and
    otherwise the coordinator it resolves to holds the destination (and
    the departure time, when that is non-empty). *)
Definition outcome_for (s c : option string) (t : string) (entity_id : string)
    (h h' : Hass) : Prop :=
  match entity_registry h !! entity_id with
  | None => (WARNING, "No entity found for " ++ entity_id) ∈ records h'
  | Some config_entry_id =>
      match lookup_coordinator h config_entry_id with
      | None => (WARNING, "No coordinator found for " ++ entity_id) ∈ records h'
      | Some r =>
          match objects h !! r with
          | None =>
              (ERROR, "Error setting route for " ++ entity_id
                      ++ ": no such object") ∈ records h'
          | Some co =>
              ∃ co', objects h' !! r = Some co' ∧
                     _dest_station co' = s ∧ _dest_city co' = c ∧
                     _departure_time co'
                     = (if String.eqb t EmptyString then _departure_time co else Some t)
          end
      end
  end.

(** What one run of [_async_update_data] on a coordinator [c] does, from
    the host state [h]: the result and the host state it leaves. *)
Inductive fetch_outcome (c : Coordinator) (h : Hass)
  : result value → Hass → Prop :=
  | fetch_skipped :
      forallb truthy_opt [_dest_station c; _dest_city c] = false →
      fetch_outcome c h (Ok VNone) h
  | fetch_stored (d : value) :
      forallb truthy_opt [_dest_station c; _dest_city c] = true →
      getRoute (gti_calls h) (payload_of c) = Response d →
      truthy d = true →
      fetch_outcome c h (Ok d) (add_call (payload_of c) h)
  | fetch_empty (d : value) :
      forallb truthy_opt [_dest_station c; _dest_city c] = true →
      getRoute (gti_calls h) (payload_of c) = Response d →
      truthy d = false →
      fetch_outcome c h
        (Raise (Exn UpdateFailed "Error: No route data received"
                  (Some (Exn UpdateFailed "No route data received" None))))
        (add_record (ERROR, "Error fetching route data")
           (add_record (ERROR, "No route data received")
              (add_call (payload_of c) h)))
  | fetch_failed (f : failure) (msg : string) :
      forallb truthy_opt [_dest_station c; _dest_city c] = true →
      getRoute (gti_calls h) (payload_of c) = Failure f msg →
      fetch_outcome c h
        (Raise (Exn UpdateFailed ("Error: " ++ msg)
                  (Some (Exn (failure_class f) msg None))))
        (add_record (ERROR, "Error fetching route data")
           (add_call (payload_of c) h)).

(** The coordinator object after a refresh whose update attempt ended
    with [r]. *)
Definition refreshed (r : result value) (c : Coordinator) : Coordinator :=
  match r with
  | Ok d => assign_update d true (last_exception c) c
  | Raise e => assign_update_failed e c
  end.

(** The coordinator an identifier resolves to in a host state, if any. *)
Definition resolves_to (h : Hass) (entity_id : string) (r : nat) : Prop :=
  ∃ config_entry_id,
    entity_registry h !! entity_id = Some config_entry_id ∧
    lookup_coordinator h config_entry_id = Some r.

(** The host state the sensor platform's setup leaves, for an entry whose
    data holds the four keys. *)
Definition sensor_platform_state (entry : ConfigEntry)
    (u p hs hc : string) (h : Hass) : Hass :=
  register_entity (entity_id_for ("hvv_route_" ++ entry_id entry))
    (entry_id entry)
    {| coordinator := length (objects h);
       _attr_name := "HVV Route from " ++ hs;
       _attr_unique_id := "hvv_route_" ++ entry_id entry;
       _attr_icon := "mdi:bus-clock" |}
    (set_objects
       <[length (objects h) := refreshed (Ok VNone) (initial_coordinator u p hs hc)]>
       (set_objects (fun l => (l ++ [initial_coordinator u p hs hc])%list) h)).

(** The host state a successful instance setup leaves: a coordinator is
    created, refreshed and stored under the entry id; the sensor platform
    is set up; the services are registered. *)
Definition configured_state (entry : ConfigEntry) (u p hs hc : string)
    (h : Hass) : Hass :=
  snd (register_services
    (sensor_platform_state entry u p hs hc
       (snd (store_coordinator (entry_id entry) (length (objects h))
          (set_objects
             <[length (objects h)
               := refreshed (Ok VNone) (initial_coordinator u p hs hc)]>
             (set_objects
                (fun l => (l ++ [initial_coordinator u p hs hc])%list) h)))))).

(** ** A scenario: one instance, home Hauptbahnhof, Hamburg *)

Definition empty_hass : Hass :=
  {| objects := []; domain_data := None; entity_registry := ∅;
     entities := ∅; services := false; gti_calls := []; records := [] |}.

Definition example_entry : ConfigEntry :=
  {| entry_id := "entry1";
     entry_data := {[ "username" := "user"; "password" := "secret";
                      "home_station" := "Hauptbahnhof";
                      "home_city" := "Hamburg" ]} |}.

Definition example_entity_id (unique_id : string) : string :=
  "sensor." ++ unique_id.

Definition example_sensor : HVVDynamicRouteSensor :=
  {| coordinator := 0;
     _attr_name := "HVV Route from Hauptbahnhof";
     _attr_unique_id := "hvv_route_entry1";
     _attr_icon := "mdi:bus-clock" |}.

(** A coordinator as [__init__] leaves it, and the same with the
    destination Altona, Hamburg. *)
Definition fresh_coordinator : Coordinator :=
  initial_coordinator "user" "secret" "Hauptbahnhof" "Hamburg".

Definition altona_coordinator : Coordinator :=
  assign_destination (Some "Altona") (Some "Hamburg") fresh_coordinator.

(** A host that holds one coordinator object, stored under the entry id,
    and the sensor that subscribes to it. *)
Definition hass_with (c : Coordinator) : Hass :=
  {| objects := [c];
     domain_data := Some {[ "entry1" := 0 ]};
     entity_registry := {[ "sensor.hvv_route_entry1" := Some "entry1" ]};
     entities := {[ "sensor.hvv_route_entry1" := example_sensor ]};
     services := true; gti_calls := []; records := [] |}.

Definition example_leg : value :=
  VDict [("line", VDict [("name", VStr "S1"); ("direction", VStr "Wedel")])].

Definition example_journey (label : string) (legs : list value) : value :=
  VDict [("time", VStr label);
         ("plannedDepartureTime", VStr "12:04");
         ("plannedArrivalTime", VStr "12:16");
         ("scheduleElements", VList legs)].

Definition example_payload : value :=
  VDict [("returnCode", VStr "OK");
         ("realtimeSchedules", VList [example_journey "12" [example_leg]])].

(** A journey with an empty list of legs between two complete ones. *)
Definition payload_with_empty_legs : value :=
  VDict [("returnCode", VStr "OK");
         ("realtimeSchedules",
          VList [example_journey "12" [example_leg];
                 example_journey "15" [];
                 example_journey "21" [example_leg]])].

(** Three transit clients: one that answers with a journey, one whose
    response is empty, one that cannot connect. *)
Definition answering_client (_ : list route_request) (_ : route_request)
  : answer := Response example_payload.

Definition empty_client (_ : list route_request) (_ : route_request)
  : answer := Response (VDict []).

Definition failing_client (_ : list route_request) (_ : route_request)
  : answer := Failure Connectivity "Cannot connect to host".

(** A call of set_route for the sensor, without a departure_time. *)
Definition example_call : ServiceCall :=
  {| call_entity_id := Some (One "sensor.hvv_route_entry1");
     call_destination_station := Some "Altona";
     call_destination_city := Some "Hamburg";
     call_departure_time := None |}.

(** A call for two identifiers of which the first is unknown to the
    entity registry. *)
Definition example_batch_call : ServiceCall :=
  {| call_entity_id := Some (Many ["sensor.unknown"; "sensor.hvv_route_entry1"]);
     call_destination_station := Some "Altona";
     call_destination_city := Some "Hamburg";
     call_departure_time := Some "08:30" |}.

(** An auth probe that fails with a network error. *)
Definition unreachable_probe (_ _ : string) : M unit :=
  raise (Exn ClientConnectionError "Cannot connect to host" None).

(** ** Further definitions used in the statements *)

(** The value the [try] body of [extra_state_attributes] computes from a
    coordinator object. *)
Definition attributes_of (c : Coordinator) : result value :=
  if negb (truthy (data c)) then Ok (VDict (config_echo c))
  else
    rbind (py_get (data c) "realtimeSchedules" (VList [])) (fun schedules =>
    rbind (py_iter schedules) (fun schedules =>
    rbind (routes_of schedules) (fun routes =>
    Ok (VDict (config_echo c ++ [("routes", VList routes)]))))).

(** A schedule (a dict) whose list of legs starts with a leg (a dict) on
    the line [line] (a dict). *)
Definition first_leg_line (schedule line : list (string * value)) : Prop :=
  ∃ leg legs,
    assoc "scheduleElements" schedule = Some (VList (VDict leg :: legs)) ∧
    assoc "line" leg = Some (VDict line).

(** The attribute record of a schedule whose first leg is on [line]; a
    key the payload does not hold gives [None]. *)
Definition route_entry (schedule line : list (string * value)) : value :=
  VDict [("departure_time", default VNone (assoc "plannedDepartureTime" schedule));
         ("arrival_time", default VNone (assoc "plannedArrivalTime" schedule));
         ("duration", default VNone (assoc "time" schedule));
         ("line", default VNone (assoc "name" line));
         ("direction", default VNone (assoc "direction" line))].

(** The time of a query: the departure-time override, or "currenttime"
    when there is none or it is empty. *)
Definition query_time (c : Coordinator) : string :=
  match _departure_time c with
  | Some (String a t) => String a t
  | _ => "currenttime"
  end.

(** What one pass of the loop of [handle_set_route] does to the host, for
    the destination (s, c), the departure time t and one identifier: the
    five ways it can go, with the host state each leaves. *)
Inductive route_step (s c : option string) (t entity_id : string) (h : Hass)
  : Hass → Prop :=
  | step_no_entity :
      entity_registry h !! entity_id = None →
      route_step s c t entity_id h
        (add_record (WARNING, "No entity found for " ++ entity_id) h)
  | step_no_coordinator (k : option string) :
      entity_registry h !! entity_id = Some k →
      lookup_coordinator h k = None →
      route_step s c t entity_id h
        (add_record (WARNING, "No coordinator found for " ++ entity_id) h)
  | step_raised (k : option string) (r : nat) :
      entity_registry h !! entity_id = Some k →
      lookup_coordinator h k = Some r →
      objects h !! r = None →
      route_step s c t entity_id h
        (add_record (ERROR, "Error setting route for " ++ entity_id
                            ++ ": no such object") h)
  | step_destination (k : option string) (r : nat) (co : Coordinator)
      (r1 : result value) (h1 : Hass) :
      entity_registry h !! entity_id = Some k →
      lookup_coordinator h k = Some r →
      objects h !! r = Some co →
      t = EmptyString →
      fetch_outcome (assign_destination s c co)
        (set_objects <[r := assign_destination s c co]> h) r1 h1 →
      route_step s c t entity_id h
        (set_objects <[r := refreshed r1 (assign_destination s c co)]> h1)
  | step_destination_time (k : option string) (r : nat) (co : Coordinator)
      (r1 r2 : result value) (h1 h2 : Hass) :
      entity_registry h !! entity_id = Some k →
      lookup_coordinator h k = Some r →
      objects h !! r = Some co →
      t ≠ EmptyString →
      fetch_outcome (assign_destination s c co)
        (set_objects <[r := assign_destination s c co]> h) r1 h1 →
      fetch_outcome
        (assign_departure_time (Some t)
           (refreshed r1 (assign_destination s c co)))
        (set_objects
           <[r := assign_departure_time (Some t)
                    (refreshed r1 (assign_destination s c co))]>
           (set_objects <[r := refreshed r1 (assign_destination s c co)]> h1))
        r2 h2 →
      route_step s c t entity_id h
        (add_record (INFO, "Route set for " ++ entity_id ++ ": "
                           ++ fmt s ++ ", " ++ fmt c)
           (set_objects
              <[r := refreshed r2
                       (assign_departure_time (Some t)
                          (refreshed r1 (assign_destination s c co)))]> h2)).

(** A coordinator whose last refresh stored the "no destination
    configured" marker. *)
Definition cleared (c : Coordinator) : Prop :=
  data c = VNone ∧ last_update_success c = true.

(** Between two host states: registry, storage and the record of queries
    are the same, and every coordinator is as it was or holds the
    marker. *)
Definition kept_or_cleared (h h' : Hass) : Prop :=
  entity_registry h' = entity_registry h ∧
  domain_data h' = domain_data h ∧
  gti_calls h' = gti_calls h ∧
  ∀ r co, objects h !! r = Some co →
          ∃ co', objects h' !! r = Some co' ∧ (co' = co ∨ cleared co').

(** The coordinator an identifier resolves to in [h] holds the marker in
    [h']. *)
Definition cleared_for (entity_id : string) (h h' : Hass) : Prop :=
  ∀ k r co,
    entity_registry h !! entity_id = Some k →
    lookup_coordinator h k = Some r →
    objects h !! r = Some co →
    ∃ co', objects h' !! r = Some co' ∧ cleared co'.

(** ** More of the scenario *)

(** A host whose platforms always unload, an auth probe that accepts the
    credentials, and the two forms of the config flow as a user submits
    them. *)
Definition always_unloads (_ : ConfigEntry) (_ : Hass) : bool := true.

Definition accepting_probe (_ _ : string) : M unit := ret tt.

Definition example_credentials : gmap string string :=
  {[ "username" := "user"; "password" := "secret" ]}.

Definition example_home : gmap string string :=
  {[ "home_station" := "Hauptbahnhof"; "home_city" := "Hamburg" ]}.

(** An entry without a password, and one whose home city is empty. *)
Definition entry_without_password : ConfigEntry :=
  {| entry_id := "entry2";
     entry_data := {[ "username" := "user";
                      "home_station" := "Hauptbahnhof";
                      "home_city" := "Hamburg" ]} |}.

Definition entry_with_empty_city : ConfigEntry :=
  {| entry_id := "entry3";
     entry_data := {[ "username" := "user"; "password" := "secret";
                      "home_station" := "Hauptbahnhof";
                      "home_city" := EmptyString ]} |}.

(** A call of set_route for the sensor that names no destination
    station. *)
Definition call_without_station : ServiceCall :=
  {| call_entity_id := Some (One "sensor.hvv_route_entry1");
     call_destination_station := None;
     call_destination_city := Some "Hamburg";
     call_departure_time := None |}.

(** The coordinator with destination Altona, Hamburg and the
    departure-time override 08:30. *)
Definition timed_coordinator : Coordinator :=
  assign_departure_time (Some "08:30") altona_coordinator.

(** A valid response that holds no journeys, and a transit client that
    answers with it. *)
Definition zero_journey_payload : value :=
  VDict [("returnCode", VStr "OK"); ("realtimeSchedules", VList [])].

Definition zero_journey_client (_ : list route_request) (_ : route_request)
  : answer := Response zero_journey_payload.

(** The coordinator with destination Altona, Hamburg holding a
    payload. *)
Definition coordinator_with (payload : value) : Coordinator :=
  assign_update payload true None altona_coordinator.

(** * Properties *)


(** ** The store and the refresh *)

Lemma deref_Some (r : nat) (h : Hass) (c : Coordinator) :
  objects h !! r = Some c → deref r h = (Ok c, h).
Proof. intros Hc. unfold deref. by rewrite Hc. Qed.

Lemma update_Some (r : nat) (f : Coordinator → Coordinator) (h : Hass)
    (c : Coordinator) :
  objects h !! r = Some c →
  update r f h = (Ok tt, set_objects <[r := f c]> h).
Proof. intros Hc. unfold update. by rewrite Hc. Qed.

Lemma lookup_set_objects_eq (r : nat) (c c' : Coordinator) (h : Hass) :
  objects h !! r = Some c →
  objects (set_objects <[r := c']> h) !! r = Some c'.
Proof.
  intros Hc. simpl. apply list_lookup_insert_eq.
  by apply lookup_lt_Some with c.
Qed.

Lemma lookup_set_objects_ne (r r' : nat) (c' : Coordinator) (h : Hass) :
  r ≠ r' →
  objects (set_objects <[r := c']> h) !! r' = objects h !! r'.
Proof. intros Hne. simpl. by apply list_lookup_insert_ne. Qed.

Lemma failure_class_Exception (f : failure) :
  issubclass (failure_class f) Exception = true.
Proof. by destruct f. Qed.

Lemma _async_update_data_outcome (self : nat) (h : Hass) (c : Coordinator) :
  objects h !! self = Some c →
  ∃ r h', _async_update_data self h = (r, h') ∧ fetch_outcome c h r h'.
Proof.
  intros Hc. unfold _async_update_data, bind. rewrite (deref_Some _ _ _ Hc).
  destruct (forallb truthy_opt [_dest_station c; _dest_city c]) eqn:Hdest.
  - unfold negb, try_except, bind, gti_getRoute. cbv beta iota zeta.
    destruct (getRoute (gti_calls h) (payload_of c)) as [d | f msg] eqn:Hq;
      unfold result_of_answer.
    + destruct (truthy d) eqn:Htd; simpl.
      * eexists _, _. split; [reflexivity |]. by apply fetch_stored.
      * eexists _, _. split; [reflexivity |]. by eapply fetch_empty.
    + unfold isinstance. simpl exn_cls. rewrite failure_class_Exception.
      eexists _, _. split; [reflexivity |]. by apply fetch_failed.
  - eexists _, _. split; [reflexivity |]. by apply fetch_skipped.
Qed.

Lemma fetch_outcome_objects (c : Coordinator) (h h' : Hass) (r : result value) :
  fetch_outcome c h r h' → objects h' = objects h.
Proof. by destruct 1. Qed.

Lemma fetch_outcome_Exception (c : Coordinator) (h h' : Hass) (e : exn) :
  fetch_outcome c h (Raise e) h' → exn_cls e = UpdateFailed.
Proof. by inversion 1. Qed.

(** A refresh of an existing coordinator always completes: it runs the
    update attempt once and stores its outcome in the object. *)
Lemma async_refresh_outcome (self : nat) (h : Hass) (c : Coordinator) :
  objects h !! self = Some c →
  ∃ r h', fetch_outcome c h r h' ∧
          async_refresh self h
          = (Ok tt, set_objects <[self := refreshed r c]> h').
Proof.
  intros Hc.
  destruct (_async_update_data_outcome self h c Hc) as (r & h' & Hrun & Hout).
  exists r, h'. split; [done |].
  assert (Hc' : objects h' !! self = Some c)
    by (by rewrite (fetch_outcome_objects _ _ _ _ Hout)).
  unfold async_refresh. rewrite Hrun. destruct r as [d | e].
  - by rewrite (update_Some _ _ _ _ Hc').
  - unfold isinstance. rewrite (fetch_outcome_Exception _ _ _ _ Hout). simpl.
    by rewrite (update_Some _ _ _ _ Hc').
Qed.

(** An attribute assignment followed by an awaited refresh, the shape of
    [set_destination] and [set_departure_time]: the assignment is made,
    then one update attempt runs on the assigned object and its outcome is
    stored; the call returns normally. *)
Lemma update_then_refresh (self : nat) (f : Coordinator → Coordinator)
    (h : Hass) (co : Coordinator) :
  objects h !! self = Some co →
  ∃ r h1,
    fetch_outcome (f co) (set_objects <[self := f co]> h) r h1 ∧
    (update self f >> async_refresh self) h
    = (Ok tt, set_objects <[self := refreshed r (f co)]> h1).
Proof.
  intros Hco. unfold bind. rewrite (update_Some _ _ _ _ Hco).
  pose proof (lookup_set_objects_eq self co (f co) h Hco) as Hco'.
  destruct (async_refresh_outcome self _ _ Hco') as (r & h1 & Hout & Hrun).
  exists r, h1. by split.
Qed.

Lemma refreshed_lookup (self : nat) (c c1 c2 : Coordinator) (h h1 : Hass)
    (r : result value) :
  objects h !! self = Some c →
  fetch_outcome c1 (set_objects <[self := c1]> h) r h1 →
  objects (set_objects <[self := c2]> h1) !! self = Some c2.
Proof.
  intros Hc Hout. simpl. rewrite (fetch_outcome_objects _ _ _ _ Hout). simpl.
  apply list_lookup_insert_eq. rewrite length_insert.
  by apply lookup_lt_Some with c.
Qed.

Lemma refreshed_lookup_ne (self r' : nat) (c1 c2 : Coordinator) (h h1 : Hass)
    (r : result value) :
  self ≠ r' →
  fetch_outcome c1 (set_objects <[self := c1]> h) r h1 →
  objects (set_objects <[self := c2]> h1) !! r' = objects h !! r'.
Proof.
  intros Hne Hout. simpl. rewrite (fetch_outcome_objects _ _ _ _ Hout). simpl.
  by rewrite !list_lookup_insert_ne.
Qed.

(** The refresh writes [data], [last_update_success] and [last_exception]
    only. *)
Lemma refreshed_config (r : result value) (c : Coordinator) :
  _username (refreshed r c) = _username c ∧
  _password (refreshed r c) = _password c ∧
  _home_station (refreshed r c) = _home_station c ∧
  _home_city (refreshed r c) = _home_city c ∧
  _dest_station (refreshed r c) = _dest_station c ∧
  _dest_city (refreshed r c) = _dest_city c ∧
  _departure_time (refreshed r c) = _departure_time c.
Proof. by destruct r. Qed.

Lemma unset_or_empty (o : option string) :
  truthy_opt o = false ↔ o = None ∨ o = Some EmptyString.
Proof.
  destruct o as [s |]; simpl.
  - destruct (String.eqb_spec s EmptyString) as [-> | Hne]; simpl; split.
    + by right.
    + done.
    + done.
    + intros [? | ?]; congruence.
  - split; [by left | done].
Qed.

(** Without a destination the update attempt is skipped, and the refresh
    stores the marker. *)
Lemma async_refresh_skipped (self : nat) (h : Hass) (c : Coordinator) :
  objects h !! self = Some c →
  forallb truthy_opt [_dest_station c; _dest_city c] = false →
  _async_update_data self h = (Ok VNone, h) ∧
  async_refresh self h
  = (Ok tt, set_objects <[self := refreshed (Ok VNone) c]> h).
Proof.
  intros Hc Hskip.
  assert (Hrun : _async_update_data self h = (Ok VNone, h)).
  { unfold _async_update_data, bind. rewrite (deref_Some _ _ _ Hc).
    by rewrite Hskip. }
  split; [done |].
  unfold async_refresh. by rewrite Hrun, (update_Some _ _ _ _ Hc).
Qed.

(** ** The coordinator *)

(** C4.  In every coordinator state in which [destination_station] or
    [destination_city] is unset ([None]) or empty, the update attempt
    returns the "no destination configured" marker [None] and leaves the
    host state as it was, so the transit client has received no query; the
    refresh that runs it stores the marker as a successful result, again
    without a query to the client. *)
Theorem refresh_without_destination (self : nat) (h : Hass) (c : Coordinator) :
  objects h !! self = Some c →
  (_dest_station c = None ∨ _dest_station c = Some EmptyString) ∨
  (_dest_city c = None ∨ _dest_city c = Some EmptyString) →
  _async_update_data self h = (Ok VNone, h) ∧
  ∃ h', async_refresh self h = (Ok tt, h') ∧
        gti_calls h' = gti_calls h ∧
        objects h' !! self = Some (refreshed (Ok VNone) c).
Proof.
  intros Hc Hdest.
  assert (Hskip : forallb truthy_opt [_dest_station c; _dest_city c] = false).
  { simpl. rewrite andb_true_r. apply andb_false_iff.
    destruct Hdest as [H | H]; [left | right]; by apply unset_or_empty. }
  destruct (async_refresh_skipped self h c Hc Hskip) as [Hrun Hrefresh].
  split; [done |].
  eexists. split; [exact Hrefresh |]. split; [done |].
  by apply lookup_set_objects_eq with c.
Qed.

(** C7 (amended).  When a destination is configured and the transit
    client answers with an empty response object, one that is false
    ([None], [{}], [[]], ...), the update attempt raises the typed
    update-failure [UpdateFailed], which is not the "no destination
    configured" marker, and the refresh records the failure and keeps the
    payload it had.  Any other response, a valid one that holds no
    journeys included, is not a failure: the update attempt returns it and
    the refresh stores it as the result. *)
Theorem empty_response_is_fetch_failure (self : nat) (h : Hass)
    (c : Coordinator) (d : value) :
  objects h !! self = Some c →
  truthy_opt (_dest_station c) = true →
  truthy_opt (_dest_city c) = true →
  getRoute (gti_calls h) (payload_of c) = Response d →
  (truthy d = false →
   ∃ e h1,
     _async_update_data self h = (Raise e, h1) ∧
     exn_cls e = UpdateFailed ∧
     fst (_async_update_data self h) ≠ Ok VNone ∧
     gti_calls h1 = (gti_calls h ++ [payload_of c])%list ∧
     ∃ h', async_refresh self h = (Ok tt, h') ∧
           objects h' !! self = Some (assign_update_failed e c)) ∧
  (truthy d = true →
   _async_update_data self h = (Ok d, add_call (payload_of c) h) ∧
   ∃ h', async_refresh self h = (Ok tt, h') ∧
         objects h' !! self = Some (refreshed (Ok d) c)).
Proof.
  intros Hc Hs Hcity Hq.
  destruct (_async_update_data_outcome self h c Hc) as (r & h1 & Hrun & Hout).
  split; intros Hd.
  - inversion Hout as [Hskip | d' _ Hq' Hd' | d' _ Hq' Hd' | f msg _ Hq']; subst.
    + simpl in Hskip. rewrite Hs, Hcity in Hskip. done.
    + congruence.
    + eexists _, _. split; [exact Hrun |]. split; [done |].
      split; [by rewrite Hrun |]. split; [done |].
      unfold async_refresh. rewrite Hrun. simpl.
      erewrite update_Some by (simpl; exact Hc).
      eexists. split; [reflexivity |].
      by apply (lookup_set_objects_eq self c).
    + congruence.
  - inversion Hout as [Hskip | d' _ Hq' Hd' | d' _ Hq' Hd' | f msg _ Hq']; subst.
    + simpl in Hskip. rewrite Hs, Hcity in Hskip. done.
    + assert (d' = d) as -> by congruence.
      split; [exact Hrun |].
      unfold async_refresh. rewrite Hrun.
      erewrite update_Some by (simpl; exact Hc).
      eexists. split; [reflexivity |].
      by apply (lookup_set_objects_eq self c).
    + congruence.
    + congruence.
Qed.

(** C5.  For every pair (s, c) and every existing coordinator,
    [set_destination s c] returns normally, and when it has returned the
    destination fields of the coordinator are (s, c) and one update attempt
    has run, on the coordinator with the new destination, and its outcome
    is stored: the returned payload with [last_update_success] set, or the
    fetch failure with [last_update_success] cleared. *)
Theorem set_destination_refreshes (self : nat) (s c : option string)
    (h : Hass) (co : Coordinator) :
  objects h !! self = Some co →
  ∃ r h1 co',
    fetch_outcome (assign_destination s c co)
      (set_objects <[self := assign_destination s c co]> h) r h1 ∧
    set_destination self s c h = (Ok tt, set_objects <[self := co']> h1) ∧
    objects (set_objects <[self := co']> h1) !! self = Some co' ∧
    _dest_station co' = s ∧ _dest_city co' = c ∧
    match r with
    | Ok d => data co' = d ∧ last_update_success co' = true
    | Raise e => last_exception co' = Some e ∧ last_update_success co' = false
                 ∧ exn_cls e = UpdateFailed
    end.
Proof.
  intros Hco.
  destruct (update_then_refresh self (assign_destination s c) h co Hco)
    as (r & h1 & Hout & Hrun).
  exists r, h1, (refreshed r (assign_destination s c co)).
  split; [done |]. split; [exact Hrun |].
  split; [by eapply refreshed_lookup |].
  destruct r as [d | e]; simpl; repeat split; try done.
  by apply (fetch_outcome_Exception _ _ _ _ Hout).
Qed.

(** C9.  For every existing coordinator and every time_spec,
    [set_departure_time] returns normally and leaves the destination
    fields, the home fields and the credentials of the coordinator as they
    were; the departure-time override is the only configuration field it
    assigns, and no other coordinator object is touched. *)
Theorem set_departure_time_frame (self : nat) (time : string) (h : Hass)
    (co : Coordinator) :
  objects h !! self = Some co →
  ∃ h' co',
    set_departure_time self time h = (Ok tt, h') ∧
    objects h' !! self = Some co' ∧
    _dest_station co' = _dest_station co ∧
    _dest_city co' = _dest_city co ∧
    _home_station co' = _home_station co ∧
    _home_city co' = _home_city co ∧
    _username co' = _username co ∧
    _password co' = _password co ∧
    _departure_time co' = Some time ∧
    ∀ r', self ≠ r' → objects h' !! r' = objects h !! r'.
Proof.
  intros Hco.
  destruct (update_then_refresh self (assign_departure_time (Some time)) h co Hco)
    as (r & h1 & Hout & Hrun).
  eexists _, _. split; [exact Hrun |].
  split; [by eapply refreshed_lookup |].
  destruct (refreshed_config r (assign_departure_time (Some time) co))
    as (-> & -> & -> & -> & -> & -> & ->).
  repeat split; try done.
  intros r' Hne. by eapply refreshed_lookup_ne.
Qed.

(** ** The sensor *)

Lemma py_get_Exception (o : value) (key : string) (dflt : value) (e : exn) :
  py_get o key dflt = Raise e → isinstance e Exception = true.
Proof. destruct o; simpl; intros [= <-]; done. Qed.

Lemma py_index0_Exception (o : value) (e : exn) :
  py_index0 o = Raise e → isinstance e Exception = true.
Proof.
  destruct o as [| b | z | s | l | d]; simpl; try (intros [= <-]; done).
  - destruct s; intros [= <-]; done.
  - destruct l; intros [= <-]; done.
Qed.

Lemma py_iter_Exception (o : value) (e : exn) :
  py_iter o = Raise e → isinstance e Exception = true.
Proof. destruct o; simpl; intros [= <-]; done. Qed.

Lemma rbind_Exception {A B} (r : result A) (f : A → result B) (e : exn) :
  (∀ e', r = Raise e' → isinstance e' Exception = true) →
  (∀ a e', f a = Raise e' → isinstance e' Exception = true) →
  rbind r f = Raise e → isinstance e Exception = true.
Proof.
  destruct r as [a | e0]; simpl; intros Hr Hf;
    [apply Hf | intros [= <-]; by apply Hr].
Qed.

Ltac raises_Exception :=
  repeat first
    [ done
    | apply py_get_Exception
    | apply py_index0_Exception
    | apply py_iter_Exception
    | apply rbind_Exception; [intros ? | intros ? ?] ].

(** Whatever the loop body of [extra_state_attributes] raises derives
    from Exception. *)
Lemma route_of_Exception (schedule : value) (e : exn) :
  route_of schedule = Raise e → isinstance e Exception = true.
Proof. unfold route_of. raises_Exception. Qed.

Lemma routes_of_Exception (schedules : list value) (e : exn) :
  routes_of schedules = Raise e → isinstance e Exception = true.
Proof.
  revert e. induction schedules as [| s rest IH]; intros e; simpl; [done |].
  apply rbind_Exception; [apply route_of_Exception |].
  intros route e'. apply rbind_Exception; [apply IH | done].
Qed.

Lemma state_of_Exception (d : value) (e : exn) :
  state_of d = Raise e → isinstance e Exception = true.
Proof.
  unfold state_of. destruct (truthy d); simpl; [| done].
  apply rbind_Exception; [apply py_get_Exception |].
  intros schedules e'. destruct (truthy schedules); [| done].
  raises_Exception.
Qed.

(** The state of a sensor is a function of the payload its coordinator
    holds, and of nothing else in the coordinator: the value the [try]
    body computes from it, or "Error" when the body raises. *)
Lemma state_eq (self : HVVDynamicRouteSensor) (h : Hass) (c : Coordinator) :
  objects h !! coordinator self = Some c →
  fst (state self h)
  = Ok (match state_of (data c) with Ok v => v | Raise _ => VStr "Error" end).
Proof.
  intros Hc. unfold state, try_except, bind. rewrite (deref_Some _ _ _ Hc).
  pose proof (state_of_Exception (data c)) as Hexn. unfold state_of in *.
  destruct (truthy (data c)); simpl; [| done].
  unfold lift.
  destruct (py_get (data c) "realtimeSchedules" (VList [])) as [sch | e];
    simpl in *.
  - destruct (truthy sch); [| done]. unfold lift.
    destruct (py_index0 sch) as [first | e]; simpl in *.
    + destruct (py_get first "time" (VStr "Unknown")) as [v | e]; simpl in *;
        [done |]. by rewrite (Hexn e).
    + by rewrite (Hexn e).
  - by rewrite (Hexn e).
Qed.

(** Reading the state never raises, whatever the host state. *)
Lemma state_never_raises (self : HVVDynamicRouteSensor) (h : Hass) :
  ∃ v, fst (state self h) = Ok v.
Proof.
  destruct (objects h !! coordinator self) as [c |] eqn:Hc.
  - rewrite (state_eq _ _ _ Hc). by eexists.
  - unfold state, try_except, bind, deref. rewrite Hc. simpl. by eexists.
Qed.

(** C2 (amended).  For every coordinator whose most recent refresh ended
    in a fetch failure, the refresh has left the stored payload as it was,
    and the state of the sensor is what it was before that refresh; it is
    "No Destination Set" when no payload is stored. *)
Theorem state_after_failed_refresh (self : HVVDynamicRouteSensor)
    (h h' : Hass) (c c' : Coordinator) :
  objects h !! coordinator self = Some c →
  async_refresh (coordinator self) h = (Ok tt, h') →
  objects h' !! coordinator self = Some c' →
  last_update_success c' = false →
  data c' = data c ∧
  fst (state self h') = fst (state self h) ∧
  (data c = VNone → fst (state self h') = Ok (VStr "No Destination Set")).
Proof.
  intros Hc Hrun Hc' Hfail.
  destruct (async_refresh_outcome _ _ _ Hc) as (r & h1 & Hout & Hrun').
  rewrite Hrun in Hrun'. injection Hrun' as ->.
  assert (Hc1 : Some c' = Some (refreshed r c)).
  { rewrite <- Hc'. simpl. rewrite (fetch_outcome_objects _ _ _ _ Hout).
    apply list_lookup_insert_eq. by apply lookup_lt_Some with c. }
  injection Hc1 as ->.
  destruct r as [d | e]; [done |].
  assert (Hst : fst (state self (set_objects
                       <[coordinator self := refreshed (Raise e) c]> h1))
                = fst (state self h)).
  { rewrite (state_eq _ _ _ Hc'), (state_eq _ _ _ Hc). done. }
  split; [done |]. split; [exact Hst |].
  intros Hnone. rewrite Hst, (state_eq _ _ _ Hc), Hnone. done.
Qed.

Lemma assoc_Some_truthy (k : string) (d : list (string * value)) (v : value) :
  assoc k d = Some v → truthy (VDict d) = true.
Proof. by destruct d. Qed.

(** A schedule whose 'scheduleElements' key is bound to the empty list
    makes the loop body raise: indexing its first leg fails. *)
Lemma route_of_empty_legs (ds : list (string * value)) :
  assoc "scheduleElements" ds = Some (VList []) →
  route_of (VDict ds)
  = Raise (Exn IndexError "list index out of range" None).
Proof. intros Hlegs. unfold route_of. simpl. by rewrite Hlegs. Qed.

(** When the key is absent the default [[{}]] supplies an empty first
    leg, and the route entry is built with no line and no direction. *)
Lemma route_of_absent_legs (ds : list (string * value)) :
  assoc "scheduleElements" ds = None →
  route_of (VDict ds)
  = Ok (VDict [("departure_time", default VNone (assoc "plannedDepartureTime" ds));
               ("arrival_time", default VNone (assoc "plannedArrivalTime" ds));
               ("duration", default VNone (assoc "time" ds));
               ("line", VNone);
               ("direction", VNone)]).
Proof.
  intros Hlegs. unfold route_of. simpl. rewrite Hlegs. simpl.
  by destruct (assoc "plannedDepartureTime" ds),
              (assoc "plannedArrivalTime" ds), (assoc "time" ds).
Qed.

Lemma routes_of_raise_at (pre post : list value) (schedule : value) (e : exn) :
  route_of schedule = Raise e →
  ∃ e', routes_of (pre ++ schedule :: post)%list = Raise e'.
Proof.
  intros Hraise. induction pre as [| s pre IH]; simpl.
  - rewrite Hraise. by eexists.
  - destruct (route_of s) as [route | e0]; simpl; [| by eexists].
    destruct IH as [e' ->]. by eexists.
Qed.

(** C10.  For every stored payload that contains a journey whose
    'scheduleElements' key is present and bound to the empty list,
    [extra_state_attributes] returns the empty dict: neither the
    RouteConfig echo fields nor the route entries of the other journeys
    are in it. *)
Theorem attributes_empty_on_empty_legs (self : HVVDynamicRouteSensor)
    (h : Hass) (c : Coordinator) (d ds : list (string * value))
    (pre post : list value) :
  objects h !! coordinator self = Some c →
  data c = VDict d →
  assoc "realtimeSchedules" d = Some (VList (pre ++ VDict ds :: post)) →
  assoc "scheduleElements" ds = Some (VList []) →
  fst (extra_state_attributes self h) = Ok (VDict []).
Proof.
  intros Hc Hdata Hsch Hlegs.
  unfold extra_state_attributes, try_except, bind.
  rewrite (deref_Some _ _ _ Hc), Hdata, (assoc_Some_truthy _ _ _ Hsch).
  unfold negb, lift, py_get. rewrite Hsch. unfold py_iter.
  destruct (routes_of_raise_at pre post _ _ (route_of_empty_legs ds Hlegs))
    as [e He].
  rewrite He, (routes_of_Exception _ _ He). done.
Qed.

(** ** The route-setting command *)

Section Dispatch.

Variables (s c : option string) (t : string).

Lemma dispatched_refl (h : Hass) : dispatched s c t h h.
Proof.
  repeat split; try done. intros r co Hco. exists co.
  split; [done |]. split; by left.
Qed.

Lemma dispatched_trans (h1 h2 h3 : Hass) :
  dispatched s c t h1 h2 → dispatched s c t h2 h3 → dispatched s c t h1 h3.
Proof.
  intros (Hreg & Hdom & Hent & Hrec & Hnone & Hobj)
         (Hreg' & Hdom' & Hent' & Hrec' & Hnone' & Hobj').
  split; [congruence |]. split; [congruence |]. split; [congruence |].
  split; [auto |]. split; [auto |].
  intros r co Hco.
  destruct (Hobj r co Hco) as (co2 & Hco2 & Hdest & Htime).
  destruct (Hobj' r co2 Hco2) as (co3 & Hco3 & Hdest' & Htime').
  exists co3. split; [done |]. split.
  - destruct Hdest' as [[-> ->] | [-> ->]]; [exact Hdest | by right].
  - destruct Htime' as [-> | [? ->]]; [exact Htime | by right].
Qed.

Lemma log_dispatched (l : level) (msg : string) (h : Hass) :
  dispatched s c t h (add_record (l, msg) h).
Proof.
  repeat split; try done.
  - intros x Hx. simpl. apply elem_of_app. by left.
  - intros r co Hco. exists co. split; [done |]. split; by left.
Qed.

Lemma elem_of_add_record (x : level * string) (h : Hass) :
  x ∈ records (add_record x h).
Proof. simpl. apply elem_of_app. right. by apply list_elem_of_singleton. Qed.

Lemma fetch_outcome_dispatched (co : Coordinator) (h h' : Hass)
    (r : result value) :
  fetch_outcome co h r h' → dispatched s c t h h'.
Proof.
  destruct 1;
    repeat first [ apply dispatched_refl
                 | eapply dispatched_trans; [| apply log_dispatched] ].
  all: repeat split; try done; intros r' co' Hco'; exists co';
    (split; [done |]); split; by left.
Qed.

(** A method of the coordinator that assigns attributes and awaits a
    refresh, seen from the command: it returns normally on an existing
    object. *)
Lemma method_dispatched (self : nat) (f : Coordinator → Coordinator)
    (h : Hass) (co : Coordinator) :
  objects h !! self = Some co →
  (_dest_station (f co) = _dest_station co ∧ _dest_city (f co) = _dest_city co
   ∨ _dest_station (f co) = s ∧ _dest_city (f co) = c) →
  (_departure_time (f co) = _departure_time co
   ∨ t ≠ EmptyString ∧ _departure_time (f co) = Some t) →
  ∃ r h',
    (update self f >> async_refresh self) h = (Ok tt, h') ∧
    dispatched s c t h h' ∧
    objects h' !! self = Some (refreshed r (f co)) ∧
    ∀ r', self ≠ r' → objects h' !! r' = objects h !! r'.
Proof.
  intros Hco Hdest Htime.
  destruct (update_then_refresh self f h co Hco) as (r & h1 & Hout & Hrun).
  exists r. eexists. split; [exact Hrun |].
  split; [| split; [by eapply refreshed_lookup
                   | by intros r' Hne; eapply refreshed_lookup_ne]].
  destruct (fetch_outcome_dispatched _ _ _ _ Hout)
    as (Hreg & Hdom & Hent & Hrec & Hnone & Hobj).
  pose proof (fetch_outcome_objects _ _ _ _ Hout) as Hobjs. simpl in Hobjs.
  repeat split; try done.
  - intros r' Hr'. simpl. rewrite Hobjs.
    rewrite list_lookup_insert_ne by congruence.
    by rewrite list_lookup_insert_ne by congruence.
  - intros r' co' Hco'. destruct (decide (self = r')) as [<- | Hne].
    + exists (refreshed r (f co)).
      split; [by eapply refreshed_lookup |].
      assert (co' = co) as -> by congruence.
      destruct (refreshed_config r (f co)) as (_ & _ & _ & _ & -> & -> & ->).
      done.
    + exists co'. split; [| split; by left].
      by rewrite (refreshed_lookup_ne _ _ _ _ _ _ _ Hne Hout).
Qed.

Lemma try_except_Ok {A} (body : M A) (handler : exn → M A) (h h' : Hass)
    (a : A) :
  body h = (Ok a, h') → try_except body handler h = (Ok a, h').
Proof. intros Hbody. unfold try_except. by rewrite Hbody. Qed.

Lemma bind_Ok {A B} (m : M A) (f : A → M B) (h h' : Hass) (a : A) :
  m h = (Ok a, h') → bind m f h = f a h'.
Proof. intros Hm. unfold bind. by rewrite Hm. Qed.

Lemma bind_get_hass {B} (f : Hass → M B) (h : Hass) :
  bind get_hass f h = f h h.
Proof. done. Qed.

(** One pass of the loop of [handle_set_route] returns normally, whatever
    the identifier and the host state, and touches no coordinator but the
    one the identifier resolves to. *)
Lemma set_route_for_step (entity_id : string) (h : Hass) :
  ∃ h', set_route_for s c t entity_id h = (Ok tt, h') ∧
        dispatched s c t h h' ∧
        outcome_for s c t entity_id h h' ∧
        ∀ r', ¬ resolves_to h entity_id r' → objects h' !! r' = objects h !! r'.
Proof.
  unfold set_route_for, outcome_for.
  destruct (entity_registry h !! entity_id) as [k |] eqn:Hreg.
  2:{ eexists. split; [| split; [apply log_dispatched
                               | split; [apply elem_of_add_record | done]]].
      apply try_except_Ok. rewrite bind_get_hass. by rewrite Hreg. }
  destruct (lookup_coordinator h k) as [r |] eqn:Hlook.
  2:{ eexists. split; [| split; [apply log_dispatched
                               | split; [apply elem_of_add_record | done]]].
      apply try_except_Ok. rewrite bind_get_hass. by rewrite Hreg, Hlook. }
  destruct (objects h !! r) as [co |] eqn:Hco.
  2:{ eexists. split; [| split; [apply log_dispatched
                               | split; [apply elem_of_add_record | done]]].
      unfold try_except. rewrite bind_get_hass, Hreg, Hlook.
      unfold set_destination, bind, update. by rewrite Hco. }
  assert (Hother : ∀ r', ¬ resolves_to h entity_id r' → r ≠ r').
  { intros r' Hnot ->. apply Hnot. by exists k. }
  destruct (method_dispatched r (assign_destination s c) h co Hco)
    as (r1 & h1 & Hrun1 & Hdisp1 & Hco1 & Hframe1); [by right | by left |].
  change (set_destination r s c h = (Ok tt, h1)) in Hrun1.
  destruct (String.eqb_spec t EmptyString) as [Ht | Hne].
  - exists h1. split; [| split; [done | split]].
    + apply try_except_Ok. rewrite bind_get_hass, Hreg, Hlook.
      rewrite (bind_Ok _ _ _ _ _ Hrun1). unfold truthy. by rewrite Ht.
    + eexists. split; [exact Hco1 |].
      by destruct (refreshed_config r1 (assign_destination s c co))
        as (_ & _ & _ & _ & -> & -> & ->).
    + intros r' Hnot. apply Hframe1. by apply Hother.
  - destruct (method_dispatched r (assign_departure_time (Some t)) h1 _ Hco1)
      as (r2 & h2 & Hrun2 & Hdisp2 & Hco2 & Hframe2); [by left | by right |].
    change (set_departure_time r t h1 = (Ok tt, h2)) in Hrun2.
    eexists. split; [| split; [| split]].
    + apply try_except_Ok. rewrite bind_get_hass, Hreg, Hlook.
      rewrite (bind_Ok _ _ _ _ _ Hrun1). unfold truthy.
      rewrite (proj2 (String.eqb_neq t EmptyString) Hne). unfold negb.
      rewrite (bind_Ok _ _ _ _ _ Hrun2). reflexivity.
    + eapply dispatched_trans; [exact Hdisp1 |].
      eapply dispatched_trans; [exact Hdisp2 | apply log_dispatched].
    + eexists. split; [apply Hco2 |].
      destruct (refreshed_config r2
                  (assign_departure_time (Some t)
                     (refreshed r1 (assign_destination s c co))))
        as (_ & _ & _ & _ & -> & -> & ->).
      by destruct (refreshed_config r1 (assign_destination s c co))
        as (_ & _ & _ & _ & Hs & Hc & _).
    + intros r' Hnot. simpl.
      rewrite (Hframe2 r' (Hother r' Hnot)). apply Hframe1. by apply Hother.
Qed.

Lemma lookup_coordinator_dispatched (h h' : Hass) :
  dispatched s c t h h' →
  ∀ k, lookup_coordinator h' k = lookup_coordinator h k.
Proof. intros (_ & Hdom & _) k. unfold lookup_coordinator. by rewrite Hdom. Qed.

(** What was observable for an identifier stays observable while the
    command goes on with the other identifiers. *)
Lemma outcome_for_lift (entity_id : string) (h0 h h1 h' : Hass) :
  dispatched s c t h0 h →
  outcome_for s c t entity_id h h1 →
  dispatched s c t h1 h' →
  outcome_for s c t entity_id h0 h'.
Proof.
  intros Hpre Hout Hpost. unfold outcome_for in *.
  pose proof (lookup_coordinator_dispatched _ _ Hpre) as Hlook.
  destruct Hpre as (Hreg & _ & _ & _ & Hnone & Hobj).
  destruct Hpost as (_ & _ & _ & Hrec' & _ & Hobj').
  rewrite Hreg in Hout.
  destruct (entity_registry h0 !! entity_id) as [k |]; [| auto].
  rewrite Hlook in Hout.
  destruct (lookup_coordinator h0 k) as [r |]; [| auto].
  destruct (objects h0 !! r) as [co0 |] eqn:Hco0.
  - destruct (Hobj r co0 Hco0) as (co & Hco & _ & Htime). rewrite Hco in Hout.
    destruct Hout as (co1 & Hco1 & Hs & Hc & Ht).
    destruct (Hobj' r co1 Hco1) as (co' & Hco' & Hdest' & Htime').
    exists co'. split; [done |].
    split; [destruct Hdest' as [[-> _] | [-> _]]; done |].
    split; [destruct Hdest' as [[_ ->] | [_ ->]]; done |].
    destruct (String.eqb_spec t EmptyString) as [Hempty | Hne].
    + destruct Htime' as [-> | [? _]]; [| done].
      destruct Htime as [<- | [? _]]; done.
    + destruct Htime' as [-> | [_ ->]]; done.
  - rewrite (Hnone r Hco0) in Hout. auto.
Qed.

Lemma resolves_to_dispatched (h h' : Hass) (entity_id : string) (r : nat) :
  dispatched s c t h h' → resolves_to h' entity_id r → resolves_to h entity_id r.
Proof.
  intros Hdisp (k & Hreg & Hlook). exists k.
  rewrite (lookup_coordinator_dispatched _ _ Hdisp) in Hlook.
  destruct Hdisp as (Hreg' & _). by rewrite <- Hreg'.
Qed.

(** The loop of [handle_set_route] runs to its end: every identifier of
    the list is dealt with, whatever happened to the ones before it, and
    a coordinator that none of them resolves to is not touched. *)
Lemma for_each_set_route (ids : list string) (h : Hass) :
  ∃ h', for_each ids (set_route_for s c t) h = (Ok tt, h') ∧
        dispatched s c t h h' ∧
        (∀ entity_id, entity_id ∈ ids → outcome_for s c t entity_id h h') ∧
        ∀ r', (∀ entity_id, entity_id ∈ ids → ¬ resolves_to h entity_id r') →
              objects h' !! r' = objects h !! r'.
Proof.
  revert h. induction ids as [| id rest IH]; intros h.
  - exists h. split; [done |]. split; [apply dispatched_refl |].
    split; [| done].
    intros entity_id Hin. by apply not_elem_of_nil in Hin.
  - destruct (set_route_for_step id h) as (h1 & Hrun1 & Hdisp1 & Hout1 & Hfr1).
    destruct (IH h1) as (h' & Hrun & Hdisp & Hout & Hfr).
    exists h'. split; [| split; [| split]].
    + simpl. by rewrite (bind_Ok _ _ _ _ _ Hrun1).
    + by eapply dispatched_trans.
    + intros entity_id Hin. apply elem_of_cons in Hin as [-> | Hin].
      * eapply outcome_for_lift; [apply dispatched_refl | exact Hout1 | exact Hdisp].
      * eapply outcome_for_lift; [exact Hdisp1 | by apply Hout | apply dispatched_refl].
    + intros r' Hnot. rewrite Hfr.
      * apply Hfr1. apply Hnot. by left.
      * intros entity_id Hin Hres. apply (Hnot entity_id); [by right |].
        by eapply resolves_to_dispatched.
Qed.

End Dispatch.

(** C8.  For every call of the route-setting command, whatever its list
    of target identifiers and whatever the host state, the handler returns
    normally, and every identifier of the list has been dealt with: one
    with no entity-registry entry has a warning "No entity found", one
    with no stored coordinator has a warning "No coordinator found", one
    whose processing raised has an error record, and every other one has
    its coordinator set to the destination of the call. *)
Theorem handle_set_route_isolates_failures (call : ServiceCall) (h : Hass) :
  ∃ h',
    handle_set_route call h = (Ok tt, h') ∧
    ∀ entity_id, entity_id ∈ target_ids call →
      outcome_for (call_destination_station call) (call_destination_city call)
        (default "currenttime" (call_departure_time call)) entity_id h h'.
Proof.
  destruct (for_each_set_route (call_destination_station call)
              (call_destination_city call)
              (default "currenttime" (call_departure_time call))
              (target_ids call) h) as (h' & Hrun & _ & Hout & _).
  by exists h'.
Qed.

(** What [handle_set_route] leaves in the coordinators it reaches: the
    destination of the call, and the departure time of the call, which is
    "currenttime" when the call has none, unless it is empty. *)
Lemma handle_set_route_effect (call : ServiceCall) (h : Hass) :
  ∃ h',
    handle_set_route call h = (Ok tt, h') ∧
    ∀ entity_id config_entry_id r co,
      entity_id ∈ target_ids call →
      entity_registry h !! entity_id = Some config_entry_id →
      lookup_coordinator h config_entry_id = Some r →
      objects h !! r = Some co →
      ∃ co', objects h' !! r = Some co' ∧
             _dest_station co' = call_destination_station call ∧
             _dest_city co' = call_destination_city call ∧
             _departure_time co'
             = match call_departure_time call with
               | None => Some "currenttime"
               | Some EmptyString => _departure_time co
               | Some time => Some time
               end.
Proof.
  destruct (for_each_set_route (call_destination_station call)
              (call_destination_city call)
              (default "currenttime" (call_departure_time call))
              (target_ids call) h) as (h' & Hrun & _ & Hout & _).
  exists h'. split; [exact Hrun |].
  intros entity_id k r co Hin Hreg Hlook Hco.
  specialize (Hout entity_id Hin). unfold outcome_for in Hout.
  rewrite Hreg, Hlook, Hco in Hout.
  destruct Hout as (co' & Hco' & Hs & Hc & Ht).
  exists co'. repeat split; try done.
  rewrite Ht. destruct (call_departure_time call) as [time |]; [| done].
  simpl. destruct (String.eqb_spec time EmptyString) as [-> | Hne]; [done |].
  destruct time; [done | done].
Qed.

(** The loop body on an identifier that resolves to a coordinator, for a
    departure time that is not empty: [set_destination], then
    [set_departure_time], then the info record. *)
Lemma set_route_for_resolved (s c : option string) (t entity_id : string)
    (h : Hass) (config_entry_id : option string) (r : nat) :
  entity_registry h !! entity_id = Some config_entry_id →
  lookup_coordinator h config_entry_id = Some r →
  t ≠ EmptyString →
  set_route_for s c t entity_id h
  = try_except
      (set_destination r s c >>
       set_departure_time r t >>
       log INFO ("Route set for " ++ entity_id ++ ": "
                 ++ fmt s ++ ", " ++ fmt c))
      (fun e => log ERROR ("Error setting route for " ++ entity_id
                           ++ ": " ++ exn_str e)) h.
Proof.
  intros Hreg Hlook Hne.
  unfold set_route_for, try_except. rewrite !bind_get_hass, Hreg, Hlook.
  unfold truthy. by rewrite (proj2 (String.eqb_neq t EmptyString) Hne).
Qed.

(** C6 (what the code does).  For every call of the route-setting command
    in which no departure_time was supplied, the handler does call
    [set_departure_time]: the default "currenttime" that it reads in
    place of the absent parameter passes the guard "if provided".  On
    each target that resolves to a coordinator it calls [set_destination]
    and then [set_departure_time "currenttime"], and when the handler has
    returned that coordinator holds the destination of the call and the
    departure-time override "currenttime", whatever override it held. *)
Theorem set_route_default_departure_time (call : ServiceCall) (h : Hass) :
  call_departure_time call = None →
  ∃ h',
    handle_set_route call h = (Ok tt, h') ∧
    ∀ entity_id config_entry_id r co,
      entity_id ∈ target_ids call →
      entity_registry h !! entity_id = Some config_entry_id →
      lookup_coordinator h config_entry_id = Some r →
      objects h !! r = Some co →
      set_route_for (call_destination_station call)
        (call_destination_city call)
        (default "currenttime" (call_departure_time call)) entity_id h
      = try_except
          (set_destination r (call_destination_station call)
             (call_destination_city call) >>
           set_departure_time r "currenttime" >>
           log INFO ("Route set for " ++ entity_id ++ ": "
                     ++ fmt (call_destination_station call) ++ ", "
                     ++ fmt (call_destination_city call)))
          (fun e => log ERROR ("Error setting route for " ++ entity_id
                               ++ ": " ++ exn_str e)) h ∧
      ∃ co', objects h' !! r = Some co' ∧
             _dest_station co' = call_destination_station call ∧
             _dest_city co' = call_destination_city call ∧
             _departure_time co' = Some "currenttime".
Proof.
  intros Hnone.
  destruct (handle_set_route_effect call h) as (h' & Hrun & Heff).
  exists h'. split; [exact Hrun |].
  intros entity_id k r co Hin Hreg Hlook Hco. split.
  - rewrite Hnone. by apply set_route_for_resolved with k.
  - destruct (Heff entity_id k r co Hin Hreg Hlook Hco)
      as (co' & Hco' & Hs & Hc & Ht).
    rewrite Hnone in Ht. by exists co'.
Qed.

(** A supplied departure_time that is empty is the one case in which the
    handler leaves [set_departure_time] out: the override is then what it
    was. *)
Lemma set_route_empty_departure_time (call : ServiceCall) (h : Hass) :
  call_departure_time call = Some EmptyString →
  ∃ h',
    handle_set_route call h = (Ok tt, h') ∧
    ∀ entity_id config_entry_id r co,
      entity_id ∈ target_ids call →
      entity_registry h !! entity_id = Some config_entry_id →
      lookup_coordinator h config_entry_id = Some r →
      objects h !! r = Some co →
      ∃ co', objects h' !! r = Some co' ∧
             _departure_time co' = _departure_time co.
Proof.
  intros Hempty.
  destruct (handle_set_route_effect call h) as (h' & Hrun & Heff).
  exists h'. split; [exact Hrun |].
  intros entity_id k r co Hin Hreg Hlook Hco.
  destruct (Heff entity_id k r co Hin Hreg Hlook Hco)
    as (co' & Hco' & _ & _ & Ht).
  rewrite Hempty in Ht. by exists co'.
Qed.

(** ** Instance setup and the coordinator the command reaches *)

Lemma bind_Ok_inv {A B} (m : M A) (f : A → M B) (h h' : Hass) (b : B) :
  bind m f h = (Ok b, h') →
  ∃ a h0, m h = (Ok a, h0) ∧ f a h0 = (Ok b, h').
Proof.
  unfold bind. destruct (m h) as [[a | e] h0]; [| done]. intros Hf.
  by exists a, h0.
Qed.

Lemma subscript_Ok_inv (d : gmap string string) (key v : string) (h h' : Hass) :
  subscript d key h = (Ok v, h') → d !! key = Some v ∧ h' = h.
Proof. unfold subscript. destruct (d !! key); [| done]. by intros [= -> ->]. Qed.

Lemma subscript_Some (d : gmap string string) (key v : string) (h : Hass) :
  d !! key = Some v → subscript d key h = (Ok v, h).
Proof. intros Hv. unfold subscript. by rewrite Hv. Qed.

Lemma truthy_opt_Some (o : option string) :
  truthy_opt o = true → ∃ v, o = Some v.
Proof. destruct o as [v |]; [by exists v | done]. Qed.

(** The mandatory first refresh of a coordinator that has no destination
    succeeds without a query to the transit client. *)
Lemma first_refresh_skipped (self : nat) (h : Hass)
    (c : Coordinator) :
  objects h !! self = Some c →
  _dest_station c = None →
  async_config_entry_first_refresh self h
  = (Ok tt, set_objects <[self := refreshed (Ok VNone) c]> h).
Proof.
  intros Hc Hdest. unfold async_config_entry_first_refresh.
  destruct (async_refresh_skipped self h c Hc) as [_ Hrun];
    [by rewrite Hdest |].
  rewrite (bind_Ok _ _ _ _ _ Hrun).
  by rewrite (bind_Ok _ _ _ _ _
                (deref_Some _ _ _ (lookup_set_objects_eq _ _ _ _ Hc))).
Qed.

Lemma new_coordinator_lookup (c : Coordinator) (h : Hass) :
  objects (set_objects (fun l => (l ++ [c])%list) h) !! length (objects h)
  = Some c.
Proof. simpl. by apply list_lookup_middle. Qed.

Lemma sensor_async_setup_entry_Ok (entry : ConfigEntry) (u p hs hc : string)
    (h : Hass) :
  entry_data entry !! CONF_USERNAME = Some u →
  entry_data entry !! CONF_PASSWORD = Some p →
  entry_data entry !! "home_station" = Some hs →
  entry_data entry !! "home_city" = Some hc →
  sensor_async_setup_entry entry h
  = (Ok tt, sensor_platform_state entry u p hs hc h).
Proof.
  intros Hu Hp Hhs Hhc. unfold sensor_async_setup_entry.
  apply try_except_Ok.
  rewrite (bind_Ok _ _ _ _ _ (subscript_Some _ _ _ h Hu)).
  rewrite (bind_Ok _ _ _ _ _ (subscript_Some _ _ _ h Hp)).
  rewrite (bind_Ok _ _ _ _ _ (subscript_Some _ _ _ h Hhs)).
  rewrite (bind_Ok _ _ _ _ _ (subscript_Some _ _ _ h Hhc)).
  unfold new_coordinator, alloc, bind at 1.
  rewrite (bind_Ok _ _ _ _ _ (subscript_Some _ _ _ _ Hhs)).
  erewrite bind_Ok
    by (by apply first_refresh_skipped
             with (c := initial_coordinator u p hs hc);
          [apply new_coordinator_lookup |]).
  reflexivity.
Qed.

Lemma async_setup_entry_true (entry : ConfigEntry) (h h1 : Hass) :
  async_setup_entry entry h = (Ok true, h1) →
  ∃ u p hs hc, h1 = configured_state entry u p hs hc h.
Proof.
  unfold async_setup_entry, try_except. intros Hrun.
  match type of Hrun with
  | match ?body h with _ => _ end = _ =>
      destruct (body h) as [[b | e] h0] eqn:Hbody
  end.
  2:{ destruct (isinstance e Exception); [| done].
      unfold bind, log, raise in Hrun. done. }
  injection Hrun as -> ->.
  apply bind_Ok_inv in Hbody as (u & h0 & Hu & Hbody).
  apply subscript_Ok_inv in Hu as [Hu ->].
  apply bind_Ok_inv in Hbody as (p & h0 & Hp & Hbody).
  apply subscript_Ok_inv in Hp as [Hp ->].
  destruct (forallb truthy_opt
              [Some u; Some p; entry_data entry !! "home_station";
               entry_data entry !! "home_city"]) eqn:Hall.
  2:{ unfold negb, bind, log, ret in Hbody. done. }
  simpl in Hall. apply andb_prop in Hall as [_ Hall].
  apply andb_prop in Hall as [_ Hall].
  apply andb_prop in Hall as [Hhs Hall].
  apply andb_prop in Hall as [Hhc _].
  apply truthy_opt_Some in Hhs as [hs Hhs].
  apply truthy_opt_Some in Hhc as [hc Hhc].
  exists u, p, hs, hc.
  rewrite Hhs, Hhc in Hbody. unfold negb in Hbody. simpl default in Hbody.
  unfold new_coordinator, alloc, bind at 1 in Hbody.
  erewrite bind_Ok in Hbody
    by (by apply first_refresh_skipped
             with (c := initial_coordinator u p hs hc);
          [apply new_coordinator_lookup |]).
  unfold store_coordinator at 1, bind at 1 in Hbody.
  unfold async_forward_entry_setups in Hbody.
  erewrite bind_Ok in Hbody
    by (apply try_except_Ok;
        by apply sensor_async_setup_entry_Ok with (u := u) (p := p)).
  unfold register_services, bind, ret in Hbody.
  by injection Hbody as <-.
Qed.

(** After a successful setup the coordinator stored under the entry id
    and the coordinator the sensor subscribes to are two objects, created
    one after the other. *)
Lemma configured_state_lookup (entry : ConfigEntry) (u p hs hc : string)
    (h : Hass) :
  let h1 := configured_state entry u p hs hc h in
  let entity_id := entity_id_for ("hvv_route_" ++ entry_id entry) in
  lookup_coordinator h1 (Some (entry_id entry)) = Some (length (objects h)) ∧
  entity_registry h1 !! entity_id = Some (Some (entry_id entry)) ∧
  (∃ sensor, entities h1 !! entity_id = Some sensor ∧
             coordinator sensor = S (length (objects h))) ∧
  objects h1 !! length (objects h)
  = Some (refreshed (Ok VNone) (initial_coordinator u p hs hc)) ∧
  objects h1 !! S (length (objects h))
  = Some (refreshed (Ok VNone) (initial_coordinator u p hs hc)).
Proof.
  unfold configured_state, sensor_platform_state, lookup_coordinator. simpl.
  rewrite !length_insert, !length_app. simpl length.
  replace (length (objects h) + 1) with (S (length (objects h))) by lia.
  split; [by rewrite lookup_insert_eq |].
  split; [by rewrite lookup_insert_eq |].
  split; [eexists; split; [by rewrite lookup_insert_eq | done] |].
  split.
  - rewrite list_lookup_insert_ne by lia.
    rewrite lookup_app_l by (rewrite length_insert, length_app; simpl; lia).
    apply list_lookup_insert_eq. rewrite length_app. simpl. lia.
  - apply list_lookup_insert_eq.
    rewrite length_app, length_insert, length_app. simpl. lia.
Qed.

(** C1 (what the code does).  For every instance whose setup succeeds and
    every call of the route-setting command that targets the sensor of the
    instance: the command returns, the coordinator it finds in the
    process-wide storage under the entity's config-entry id is not the
    object the sensor subscribes to; the stored coordinator receives the
    destination, the sensor's coordinator is left without one, and the
    state of the sensor is still "No Destination Set". *)
Theorem set_route_misses_sensor_coordinator (entry : ConfigEntry)
    (call : ServiceCall) (h h1 : Hass) :
  async_setup_entry entry h = (Ok true, h1) →
  target_ids call = [entity_id_for ("hvv_route_" ++ entry_id entry)] →
  ∃ h2 sensor stored,
    handle_set_route call h1 = (Ok tt, h2) ∧
    entities h2 !! entity_id_for ("hvv_route_" ++ entry_id entry) = Some sensor ∧
    entity_registry h2 !! entity_id_for ("hvv_route_" ++ entry_id entry)
    = Some (Some (entry_id entry)) ∧
    lookup_coordinator h2 (Some (entry_id entry)) = Some stored ∧
    coordinator sensor ≠ stored ∧
    (∃ co, objects h2 !! stored = Some co ∧
           _dest_station co = call_destination_station call ∧
           _dest_city co = call_destination_city call) ∧
    (∃ co, objects h2 !! coordinator sensor = Some co ∧
           _dest_station co = None ∧ _dest_city co = None) ∧
    fst (state sensor h2) = Ok (VStr "No Destination Set").
Proof.
  intros Hsetup Hids.
  apply async_setup_entry_true in Hsetup as (u & p & hs & hc & ->).
  destruct (configured_state_lookup entry u p hs hc h)
    as (Hstored & Hreg & (sensor & Hsensor & Href) & Hobj & Hobj').
  set (h1 := configured_state entry u p hs hc h) in *.
  set (entity_id := entity_id_for ("hvv_route_" ++ entry_id entry)) in *.
  destruct (for_each_set_route (call_destination_station call)
              (call_destination_city call)
              (default "currenttime" (call_departure_time call))
              (target_ids call) h1) as (h2 & Hrun & Hdisp & Hout & Hframe).
  assert (Hin : entity_id ∈ target_ids call)
    by (rewrite Hids; apply list_elem_of_singleton; done).
  specialize (Hout entity_id Hin). unfold outcome_for in Hout.
  rewrite Hreg, Hstored, Hobj in Hout.
  destruct Hout as (co & Hco & Hs & Hc & _).
  assert (Hkept : objects h2 !! coordinator sensor
                  = Some (refreshed (Ok VNone) (initial_coordinator u p hs hc))).
  { rewrite Href, <- Hobj'. apply Hframe. intros id Hid (k & Hk & Hlook).
    rewrite Hids in Hid. apply list_elem_of_singleton in Hid as ->.
    rewrite Hreg in Hk. injection Hk as <-. rewrite Hstored in Hlook.
    injection Hlook. lia. }
  destruct Hdisp as (Hreg2 & Hdom2 & Hent2 & _).
  exists h2, sensor, (length (objects h)).
  split; [exact Hrun |].
  split; [by rewrite Hent2 |].
  split; [by rewrite Hreg2 |].
  split; [unfold lookup_coordinator in *; by rewrite Hdom2 |].
  split; [rewrite Href; lia |].
  split; [by exists co |].
  split; [by eexists |].
  by rewrite (state_eq _ _ _ Hkept).
Qed.

(** * Further properties *)

(** ** The sensor projection *)

Lemma attributes_of_Exception (c : Coordinator) (e : exn) :
  attributes_of c = Raise e → isinstance e Exception = true.
Proof.
  unfold attributes_of. destruct (truthy (data c)); simpl; [| done].
  apply rbind_Exception; [apply py_get_Exception |]. intros sch e1.
  apply rbind_Exception; [apply py_iter_Exception |]. intros l e2.
  apply rbind_Exception; [apply routes_of_Exception | done].
Qed.

(** The attributes of a sensor are a function of its coordinator object:
    what the [try] body computes, or the empty dict when it raises. *)
Lemma attributes_eq (self : HVVDynamicRouteSensor) (h : Hass) (c : Coordinator) :
  objects h !! coordinator self = Some c →
  fst (extra_state_attributes self h)
  = Ok (match attributes_of c with Ok v => v | Raise _ => VDict [] end).
Proof.
  intros Hc. unfold extra_state_attributes, try_except, bind.
  rewrite (deref_Some _ _ _ Hc).
  pose proof (attributes_of_Exception c) as Hexn. unfold attributes_of in *.
  destruct (truthy (data c)); simpl; [| done]. unfold lift.
  destruct (py_get (data c) "realtimeSchedules" (VList [])) as [sch | e];
    simpl in *; [| by rewrite (Hexn e)].
  destruct (py_iter sch) as [l | e]; simpl in *; [| by rewrite (Hexn e)].
  destruct (routes_of l) as [routes | e]; simpl in *; [done |].
  by rewrite (Hexn e).
Qed.

(** Reading the attributes never raises, whatever the host state and
    whatever the payload. *)
Theorem attributes_never_raise (self : HVVDynamicRouteSensor) (h : Hass) :
  ∃ v, fst (extra_state_attributes self h) = Ok v.
Proof.
  destruct (objects h !! coordinator self) as [c |] eqn:Hc.
  - rewrite (attributes_eq _ _ _ Hc). by eexists.
  - unfold extra_state_attributes, try_except, bind, deref. rewrite Hc.
    simpl. by eexists.
Qed.

Lemma state_of_first_schedule (d first : list (string * value))
    (rest : list value) :
  assoc "realtimeSchedules" d = Some (VList (VDict first :: rest)) →
  state_of (VDict d) = Ok (default (VStr "Unknown") (assoc "time" first)).
Proof.
  intros Hsch. unfold state_of. rewrite (assoc_Some_truthy _ _ _ Hsch). simpl.
  rewrite Hsch. simpl. by destruct (assoc "time" first).
Qed.

(** With a payload that holds a non-empty list of schedules whose first
    one is a dict, the state is the time label of that first schedule, and
    "Unknown" when it has none. *)
Theorem state_first_schedule (self : HVVDynamicRouteSensor) (h : Hass)
    (c : Coordinator) (d first : list (string * value)) (rest : list value) :
  objects h !! coordinator self = Some c →
  data c = VDict d →
  assoc "realtimeSchedules" d = Some (VList (VDict first :: rest)) →
  fst (state self h) = Ok (default (VStr "Unknown") (assoc "time" first)).
Proof.
  intros Hc Hdata Hsch. rewrite (state_eq _ _ _ Hc), Hdata.
  by rewrite (state_of_first_schedule _ _ _ Hsch).
Qed.

(** With a non-empty dict as payload that has no schedules (the key is
    absent, or bound to an empty list or another false value) the state
    is "No Routes Found". *)
Theorem state_no_routes (self : HVVDynamicRouteSensor) (h : Hass)
    (c : Coordinator) (d : list (string * value)) :
  objects h !! coordinator self = Some c →
  data c = VDict d →
  d ≠ [] →
  (assoc "realtimeSchedules" d = None
   ∨ ∃ v, assoc "realtimeSchedules" d = Some v ∧ truthy v = false) →
  fst (state self h) = Ok (VStr "No Routes Found").
Proof.
  intros Hc Hdata Hne Hsch. rewrite (state_eq _ _ _ Hc), Hdata.
  unfold state_of. destruct d as [| kv d']; [done |]. simpl truthy.
  unfold negb, py_get, rbind.
  destruct Hsch as [-> | (v & -> & Hv)]; [done |]. by rewrite Hv.
Qed.

(** A payload that is true but not a dict (a list or a string, say) makes
    the state "Error". *)
Theorem state_error_on_malformed_payload (self : HVVDynamicRouteSensor)
    (h : Hass) (c : Coordinator) :
  objects h !! coordinator self = Some c →
  truthy (data c) = true →
  (∀ d, data c ≠ VDict d) →
  fst (state self h) = Ok (VStr "Error").
Proof.
  intros Hc Htrue Hshape. rewrite (state_eq _ _ _ Hc).
  unfold state_of. rewrite Htrue. simpl.
  destruct (data c) as [| b | z | s | l | d]; try done.
  by destruct (Hshape d).
Qed.

Lemma route_of_first_leg (ds line : list (string * value)) :
  first_leg_line ds line →
  route_of (VDict ds) = Ok (route_entry ds line).
Proof.
  intros (leg & legs & Hlegs & Hline). unfold route_of, route_entry. simpl.
  rewrite Hlegs. simpl. rewrite Hline. simpl.
  by destruct (assoc "plannedDepartureTime" ds),
              (assoc "plannedArrivalTime" ds), (assoc "time" ds),
              (assoc "name" line), (assoc "direction" line).
Qed.

(** With a payload of N schedules each of which has a first leg on a
    line, the attributes are the echo of the configuration followed by
    ['routes'], a list of N records, one per schedule in the order of the
    payload, with line and direction taken from the first leg. *)
Theorem attributes_routes (self : HVVDynamicRouteSensor) (h : Hass)
    (c : Coordinator) (d : list (string * value))
    (schedules routes : list value) :
  objects h !! coordinator self = Some c →
  data c = VDict d →
  assoc "realtimeSchedules" d = Some (VList schedules) →
  Forall2 (fun schedule route =>
             ∃ ds line, schedule = VDict ds ∧ first_leg_line ds line ∧
                        route = route_entry ds line) schedules routes →
  length routes = length schedules ∧
  fst (extra_state_attributes self h)
  = Ok (VDict (config_echo c ++ [("routes", VList routes)])).
Proof.
  intros Hc Hdata Hsch Hroutes.
  split; [symmetry; by eapply Forall2_length |].
  rewrite (attributes_eq _ _ _ Hc). unfold attributes_of.
  rewrite Hdata, (assoc_Some_truthy _ _ _ Hsch). simpl. rewrite Hsch. simpl.
  assert (Hall : routes_of schedules = Ok routes).
  { clear Hsch.
    induction Hroutes as [| schedule route schedules routes
                            (ds & line & -> & Hleg & ->) _ IH]; [done |].
    simpl. by rewrite (route_of_first_leg _ _ Hleg), IH. }
  by rewrite Hall.
Qed.

(** ** The refresh *)

Lemma time_time_payload_of (c : Coordinator) :
  time_time (payload_of c) = query_time c.
Proof.
  unfold payload_of, query_time. simpl.
  by destruct (_departure_time c) as [[| a t] |].
Qed.

(** With a destination configured, the update attempt sends exactly one
    query, from the home station to the destination, for today, as a
    departure time, with the departure-time override as time, or
    "currenttime" when the override is unset or empty. *)
Theorem refresh_query (self : nat) (h : Hass) (c : Coordinator)
    (station city : string) :
  objects h !! self = Some c →
  _dest_station c = Some station → station ≠ EmptyString →
  _dest_city c = Some city → city ≠ EmptyString →
  gti_calls (snd (_async_update_data self h))
  = (gti_calls h
     ++ [ {| start_name := _home_station c; start_city := _home_city c;
             start_type := "STATION";
             dest_name := station; dest_city := city; dest_type := "STATION";
             time_date := "today"; time_time := query_time c;
             timeIsDeparture := true; realtime := "REALTIME" |} ])%list.
Proof.
  intros Hc Hs Hsne Hcity Hcne.
  destruct (_async_update_data_outcome self h c Hc) as (r & h' & -> & Hout).
  assert (Hq : payload_of c
               = {| start_name := _home_station c; start_city := _home_city c;
                    start_type := "STATION";
                    dest_name := station; dest_city := city;
                    dest_type := "STATION";
                    time_date := "today"; time_time := query_time c;
                    timeIsDeparture := true; realtime := "REALTIME" |}).
  { rewrite <- time_time_payload_of. unfold payload_of. by rewrite Hs, Hcity. }
  rewrite <- Hq.
  inversion Hout as [Hskip | | |]; subst; try done.
  simpl in Hskip. rewrite Hs, Hcity in Hskip. simpl in Hskip.
  rewrite (proj2 (String.eqb_neq _ _) Hsne) in Hskip.
  by rewrite (proj2 (String.eqb_neq _ _) Hcne) in Hskip.
Qed.

(** When the transit client fails, the refresh completes all the same: the
    payload is the one from before, the update is marked failed, and the
    stored exception is an [UpdateFailed] whose message carries the
    client's and whose cause is the client's exception. *)
Theorem refresh_client_failure (self : nat) (h : Hass) (c : Coordinator)
    (f : failure) (msg : string) :
  objects h !! self = Some c →
  forallb truthy_opt [_dest_station c; _dest_city c] = true →
  getRoute (gti_calls h) (payload_of c) = Failure f msg →
  ∃ h' c',
    async_refresh self h = (Ok tt, h') ∧
    objects h' !! self = Some c' ∧
    data c' = data c ∧
    last_update_success c' = false ∧
    last_exception c'
    = Some (Exn UpdateFailed ("Error: " ++ msg)
              (Some (Exn (failure_class f) msg None))).
Proof.
  intros Hc Hdest Hq.
  destruct (async_refresh_outcome self h c Hc) as (r & h1 & Hout & Hrun).
  inversion Hout as [Hskip | d _ Hq' _ | d _ Hq' _ | f' msg' _ Hq']; subst;
    try congruence.
  rewrite Hq in Hq'. injection Hq' as <- <-.
  eexists _, _. split; [exact Hrun |].
  split; [by apply (lookup_set_objects_eq self c) |]. done.
Qed.

(** Setting a destination while the transit client answers with a
    payload of schedules: the one query it sends is for the new
    destination, and the state of the sensor becomes the time label of
    the first schedule of the answer. *)
Theorem set_destination_shows_first_schedule (self : HVVDynamicRouteSensor)
    (station city : string) (h : Hass) (co : Coordinator)
    (d first : list (string * value)) (rest : list value) :
  objects h !! coordinator self = Some co →
  station ≠ EmptyString → city ≠ EmptyString →
  getRoute (gti_calls h)
    (payload_of (assign_destination (Some station) (Some city) co))
  = Response (VDict d) →
  assoc "realtimeSchedules" d = Some (VList (VDict first :: rest)) →
  ∃ h',
    set_destination (coordinator self) (Some station) (Some city) h
    = (Ok tt, h') ∧
    gti_calls h'
    = (gti_calls h
       ++ [payload_of (assign_destination (Some station) (Some city) co)])%list ∧
    dest_name (payload_of (assign_destination (Some station) (Some city) co))
    = station ∧
    dest_city (payload_of (assign_destination (Some station) (Some city) co))
    = city ∧
    fst (state self h') = Ok (default (VStr "Unknown") (assoc "time" first)).
Proof.
  intros Hco Hsne Hcne Hq Hsch.
  destruct (update_then_refresh (coordinator self)
              (assign_destination (Some station) (Some city)) h co Hco)
    as (r & h1 & Hout & Hrun).
  eexists. split; [exact Hrun |].
  pose proof (refreshed_lookup _ _ _
                (refreshed r (assign_destination (Some station) (Some city) co))
                _ _ _ Hco Hout) as Hco'.
  inversion Hout as [Hskip | d' _ Hq' Hd' | d' _ Hq' Hd' | f msg _ Hq']; subst.
  - simpl in Hskip.
    rewrite (proj2 (String.eqb_neq _ _) Hsne) in Hskip.
    by rewrite (proj2 (String.eqb_neq _ _) Hcne) in Hskip.
  - simpl in Hq'. rewrite Hq in Hq'. injection Hq' as <-.
    split; [done |]. split; [done |]. split; [done |].
    rewrite (state_eq _ _ _ Hco'). simpl data.
    by rewrite (state_of_first_schedule _ _ _ Hsch).
  - simpl in Hq'. rewrite Hq in Hq'. injection Hq' as <-.
    by rewrite (assoc_Some_truthy _ _ _ Hsch) in Hd'.
  - simpl in Hq'. congruence.
Qed.

(** Setting a destination while the transit client fails, on a
    coordinator that holds no payload: the attributes of the sensor are
    the echo of the configuration with the new destination, and nothing
    else. *)
Theorem attributes_after_failed_set_destination
    (self : HVVDynamicRouteSensor) (s c : option string) (h : Hass)
    (co : Coordinator) (f : failure) (msg : string) :
  objects h !! coordinator self = Some co →
  truthy (data co) = false →
  getRoute (gti_calls h) (payload_of (assign_destination s c co))
  = Failure f msg →
  ∃ h',
    set_destination (coordinator self) s c h = (Ok tt, h') ∧
    fst (extra_state_attributes self h')
    = Ok (VDict [("home_station", VStr (_home_station co));
                 ("home_city", VStr (_home_city co));
                 ("destination_station", of_opt s);
                 ("destination_city", of_opt c);
                 ("departure_time", of_opt (_departure_time co))]).
Proof.
  intros Hco Hdata Hq.
  destruct (update_then_refresh (coordinator self) (assign_destination s c)
              h co Hco) as (r & h1 & Hout & Hrun).
  eexists. split; [exact Hrun |].
  pose proof (refreshed_lookup _ _ _ (refreshed r (assign_destination s c co))
                _ _ _ Hco Hout) as Hco'.
  rewrite (attributes_eq _ _ _ Hco'). unfold attributes_of.
  inversion Hout as [Hskip | d' _ Hq' Hd' | d' _ Hq' Hd' | f' msg' _ Hq']; subst.
  - done.
  - simpl in Hq'. congruence.
  - simpl in Hq'. congruence.
  - simpl. by rewrite Hdata.
Qed.

(** ** The route-setting command, step by step *)

Section DispatchSteps.

Variables (s c : option string) (t : string).

(** Every pass of the loop is one of the five steps, and returns
    normally. *)
Lemma set_route_for_route_step (entity_id : string) (h : Hass) :
  ∃ h', set_route_for s c t entity_id h = (Ok tt, h') ∧
        route_step s c t entity_id h h'.
Proof.
  unfold set_route_for.
  destruct (entity_registry h !! entity_id) as [k |] eqn:Hreg.
  2:{ eexists. split; [| by apply step_no_entity].
      apply try_except_Ok. rewrite bind_get_hass. by rewrite Hreg. }
  destruct (lookup_coordinator h k) as [r |] eqn:Hlook.
  2:{ eexists. split; [| by eapply step_no_coordinator].
      apply try_except_Ok. rewrite bind_get_hass. by rewrite Hreg, Hlook. }
  destruct (objects h !! r) as [co |] eqn:Hco.
  2:{ eexists. split; [| by eapply step_raised].
      unfold try_except. rewrite bind_get_hass, Hreg, Hlook.
      unfold set_destination, bind, update. by rewrite Hco. }
  destruct (update_then_refresh r (assign_destination s c) h co Hco)
    as (r1 & h1 & Hout1 & Hrun1).
  pose proof (refreshed_lookup _ _ _
                (refreshed r1 (assign_destination s c co)) _ _ _ Hco Hout1)
    as Hco1.
  destruct (decide (t = EmptyString)) as [Ht | Hne].
  - eexists. split; [| by eapply step_destination].
    apply try_except_Ok. rewrite bind_get_hass, Hreg, Hlook.
    rewrite (bind_Ok (set_destination r s c) _ _ _ _ Hrun1). unfold truthy. by rewrite Ht.
  - destruct (update_then_refresh r (assign_departure_time (Some t)) _ _ Hco1)
      as (r2 & h2 & Hout2 & Hrun2).
    eexists. split; [| by eapply step_destination_time].
    apply try_except_Ok. rewrite bind_get_hass, Hreg, Hlook.
    rewrite (bind_Ok (set_destination r s c) _ _ _ _ Hrun1). unfold truthy.
    rewrite (proj2 (String.eqb_neq t EmptyString) Hne). unfold negb.
    by rewrite (bind_Ok (set_departure_time r t) _ _ _ _ Hrun2).
Qed.

Lemma fetch_outcome_calls (co : Coordinator) (h h' : Hass) (r : result value) :
  fetch_outcome co h r h' →
  ∃ qs, gti_calls h' = (gti_calls h ++ qs)%list ∧ (length qs ≤ 1)%nat.
Proof.
  destruct 1; simpl.
  - exists []. split; [by rewrite app_nil_r | simpl; lia].
  - eexists [_]. split; [done | simpl; lia].
  - eexists [_]. split; [done | simpl; lia].
  - eexists [_]. split; [done | simpl; lia].
Qed.

(** One pass of the loop sends the transit client two queries at most. *)
Lemma route_step_calls (entity_id : string) (h h' : Hass) :
  route_step s c t entity_id h h' →
  ∃ qs, gti_calls h' = (gti_calls h ++ qs)%list ∧ (length qs ≤ 2)%nat.
Proof.
  destruct 1 as [| | | k r co r1 h1 _ _ _ _ Hout1
                 | k r co r1 r2 h1 h2 _ _ _ _ Hout1 Hout2]; simpl.
  1-3: exists []; split; [by rewrite app_nil_r | simpl; lia].
  - destruct (fetch_outcome_calls _ _ _ _ Hout1) as (qs & Hqs & Hlen).
    exists qs. split; [done | lia].
  - destruct (fetch_outcome_calls _ _ _ _ Hout1) as (qs1 & Hqs1 & Hlen1).
    destruct (fetch_outcome_calls _ _ _ _ Hout2) as (qs2 & Hqs2 & Hlen2).
    simpl in Hqs1, Hqs2. exists (qs1 ++ qs2)%list.
    split; [by rewrite Hqs2, Hqs1, app_assoc |].
    rewrite length_app. lia.
Qed.

Lemma for_each_set_route_calls (ids : list string) (h : Hass) :
  ∃ qs, gti_calls (snd (for_each ids (set_route_for s c t) h))
        = (gti_calls h ++ qs)%list ∧
        (length qs ≤ 2 * length ids)%nat.
Proof.
  revert h. induction ids as [| id rest IH]; intros h.
  - exists []. split; [by rewrite app_nil_r | simpl; lia].
  - destruct (set_route_for_route_step id h) as (h1 & Hrun1 & Hstep).
    destruct (route_step_calls _ _ _ Hstep) as (qs1 & Hqs1 & Hlen1).
    destruct (IH h1) as (qs & Hqs & Hlen).
    exists (qs1 ++ qs)%list. split.
    + simpl for_each. rewrite (bind_Ok _ _ _ _ _ Hrun1).
      by rewrite Hqs, Hqs1, app_assoc.
    + rewrite length_app. simpl length. lia.
Qed.

End DispatchSteps.

(** For every call, the handler sends the transit client at most two
    queries for each target identifier, and the queries it received
    before stay in its record. *)
Theorem handle_set_route_calls (call : ServiceCall) (h : Hass) :
  ∃ qs, gti_calls (snd (handle_set_route call h)) = (gti_calls h ++ qs)%list ∧
        (length qs ≤ 2 * length (target_ids call))%nat.
Proof. apply for_each_set_route_calls. Qed.

(** The handler leaves the entity registry, the coordinator storage, the
    entities and the number of coordinator objects as they were, and does
    not touch a coordinator that none of its target identifiers resolves
    to. *)
Theorem handle_set_route_frame (call : ServiceCall) (h : Hass) :
  ∃ h',
    handle_set_route call h = (Ok tt, h') ∧
    entity_registry h' = entity_registry h ∧
    domain_data h' = domain_data h ∧
    entities h' = entities h ∧
    length (objects h') = length (objects h) ∧
    ∀ r, (∀ entity_id, entity_id ∈ target_ids call →
                       ¬ resolves_to h entity_id r) →
         objects h' !! r = objects h !! r.
Proof.
  destruct (for_each_set_route (call_destination_station call)
              (call_destination_city call)
              (default "currenttime" (call_departure_time call))
              (target_ids call) h)
    as (h' & Hrun & (Hreg & Hdom & Hent & _ & Hnone & Hsome) & _ & Hframe).
  exists h'. repeat split; try done.
  apply Nat.le_antisymm.
  - apply lookup_ge_None. apply Hnone. by apply lookup_ge_None.
  - destruct (objects h) as [| co l] eqn:Hobjs using rev_ind; [simpl; lia |].
    clear IHl. rewrite length_app. simpl.
    destruct (Hsome (length l) co) as (co' & Hco' & _);
      [by apply list_lookup_middle |].
    apply lookup_lt_Some in Hco'. lia.
Qed.

(** ** The route-setting command without a destination *)

Section DispatchWithoutDestination.

Variables (s c : option string) (t : string).
Hypothesis no_destination : forallb truthy_opt [s; c] = false.

Lemma fetch_outcome_skipped (co : Coordinator) (h h' : Hass) (r : result value) :
  forallb truthy_opt [_dest_station co; _dest_city co] = false →
  fetch_outcome co h r h' → r = Ok VNone ∧ h' = h.
Proof. intros Hskip. destruct 1; [done | congruence ..]. Qed.

Lemma kept_or_cleared_log (x : level * string) (h : Hass) :
  kept_or_cleared h (add_record x h).
Proof. repeat split; try done. intros r co Hco. exists co. by split; [| left]. Qed.

Lemma kept_or_cleared_insert (r : nat) (co co' : Coordinator) (h : Hass) :
  objects h !! r = Some co →
  cleared co' →
  kept_or_cleared h (set_objects <[r := co']> h).
Proof.
  intros Hco Hcl. repeat split; try done. intros r' co0 Hco0. simpl.
  destruct (decide (r = r')) as [<- | Hne].
  - exists co'. split; [| by right].
    apply list_lookup_insert_eq. by apply lookup_lt_Some with co.
  - exists co0. split; [| by left]. by rewrite list_lookup_insert_ne.
Qed.

Lemma route_step_without_destination (entity_id : string) (h h' : Hass) :
  route_step s c t entity_id h h' →
  kept_or_cleared h h' ∧ cleared_for entity_id h h'.
Proof.
  destruct 1 as [Hreg | k Hreg Hlook | k r Hreg Hlook Hco
                 | k r co r1 h1 Hreg Hlook Hco _ Hout1
                 | k r co r1 r2 h1 h2 Hreg Hlook Hco _ Hout1 Hout2].
  - split; [apply kept_or_cleared_log |]. intros k r co Hk. congruence.
  - split; [apply kept_or_cleared_log |]. intros k' r co Hk Hl. congruence.
  - split; [apply kept_or_cleared_log |]. intros k' r' co Hk Hl Hc.
    congruence.
  - apply fetch_outcome_skipped in Hout1 as [-> ->];
      [| exact no_destination].
    assert (Hkept : kept_or_cleared h
              (set_objects <[r := refreshed (Ok VNone) (assign_destination s c co)]>
                 (set_objects <[r := assign_destination s c co]> h))).
    { repeat split; try done. intros r' co0 Hco0. simpl.
      destruct (decide (r = r')) as [<- | Hne].
      - eexists. split; [apply list_lookup_insert_eq; rewrite length_insert;
                           by apply lookup_lt_Some with co | by right].
      - exists co0. split; [| by left]. by rewrite !list_lookup_insert_ne. }
    split; [exact Hkept |].
    intros k' r' co0 Hk Hl Hc. assert (r' = r) as -> by congruence.
    eexists. split;
      [simpl; apply list_lookup_insert_eq; rewrite length_insert;
       by apply lookup_lt_Some with co | done].
  - apply fetch_outcome_skipped in Hout1 as [-> ->];
      [| exact no_destination].
    apply fetch_outcome_skipped in Hout2 as [-> ->];
      [| exact no_destination].
    assert (Hlen : r < length (objects h)) by (by apply lookup_lt_Some with co).
    split.
    + repeat split; try done. intros r' co0 Hco0. simpl.
      destruct (decide (r = r')) as [<- | Hne].
      * eexists. split; [apply list_lookup_insert_eq; by rewrite !length_insert
                          | by right].
      * exists co0. split; [| by left]. by rewrite !list_lookup_insert_ne.
    + intros k' r' co0 Hk Hl Hc. assert (r' = r) as -> by congruence.
      eexists. split;
        [simpl; apply list_lookup_insert_eq; by rewrite !length_insert | done].
Qed.

Lemma for_each_without_destination (ids : list string) (h : Hass) :
  ∃ h', for_each ids (set_route_for s c t) h = (Ok tt, h') ∧
        kept_or_cleared h h' ∧
        ∀ entity_id, entity_id ∈ ids → cleared_for entity_id h h'.
Proof.
  revert h. induction ids as [| id rest IH]; intros h.
  - exists h. split; [done |]. split.
    + repeat split; try done. intros r co Hco. exists co. by split; [| left].
    + intros entity_id Hin. by apply not_elem_of_nil in Hin.
  - destruct (set_route_for_route_step s c t id h) as (h1 & Hrun1 & Hstep).
    apply route_step_without_destination in Hstep
      as [(Hreg1 & Hdom1 & Hcalls1 & Hobj1) Hfor1].
    destruct (IH h1) as (h' & Hrun & (Hreg & Hdom & Hcalls & Hobj) & Hfor).
    exists h'. split; [| split].
    + simpl. by rewrite (bind_Ok _ _ _ _ _ Hrun1).
    + split; [congruence |]. split; [congruence |]. split; [congruence |].
      intros r co Hco.
      destruct (Hobj1 r co Hco) as (co1 & Hco1 & Hkept1).
      destruct (Hobj r co1 Hco1) as (co' & Hco' & Hkept).
      exists co'. split; [done |].
      destruct Hkept as [-> | Hcl]; [exact Hkept1 | by right].
    + intros entity_id Hin k r co Hk Hl Hco.
      apply elem_of_cons in Hin as [-> | Hin].
      * destruct (Hfor1 k r co Hk Hl Hco) as (co1 & Hco1 & Hcl1).
        destruct (Hobj r co1 Hco1) as (co' & Hco' & Hkept).
        exists co'. split; [done |]. by destruct Hkept as [-> | Hcl].
      * destruct (Hobj1 r co Hco) as (co1 & Hco1 & _).
        apply (Hfor entity_id Hin k r co1); [by rewrite Hreg1 | | done].
        unfold lookup_coordinator in *. by rewrite Hdom1.
Qed.

End DispatchWithoutDestination.

(** A call in which destination_station or destination_city is absent or
    empty sends no query to the transit client; every coordinator that a
    target identifier resolves to is left with the "no destination
    configured" marker in place of the payload it held, and the state of a
    sensor that subscribes to it is "No Destination Set". *)
Theorem set_route_without_destination (call : ServiceCall) (h : Hass) :
  truthy_opt (call_destination_station call) = false
  ∨ truthy_opt (call_destination_city call) = false →
  ∃ h',
    handle_set_route call h = (Ok tt, h') ∧
    gti_calls h' = gti_calls h ∧
    ∀ entity_id config_entry_id r co,
      entity_id ∈ target_ids call →
      entity_registry h !! entity_id = Some config_entry_id →
      lookup_coordinator h config_entry_id = Some r →
      objects h !! r = Some co →
      (∃ co', objects h' !! r = Some co' ∧ cleared co') ∧
      ∀ sensor, coordinator sensor = r →
                fst (state sensor h') = Ok (VStr "No Destination Set").
Proof.
  intros Hnone.
  assert (Hskip : forallb truthy_opt
                    [call_destination_station call; call_destination_city call]
                  = false).
  { simpl. rewrite andb_true_r. apply andb_false_iff. exact Hnone. }
  destruct (for_each_without_destination _ _
              (default "currenttime" (call_departure_time call)) Hskip
              (target_ids call) h) as (h' & Hrun & (_ & _ & Hcalls & _) & Hfor).
  exists h'. split; [exact Hrun |]. split; [exact Hcalls |].
  intros entity_id k r co Hin Hk Hl Hco.
  destruct (Hfor entity_id Hin k r co Hk Hl Hco) as (co' & Hco' & Hdata & Hok).
  split; [by exists co' |].
  intros sensor <-. by rewrite (state_eq _ _ _ Hco'), Hdata.
Qed.

(** ** Instance setup and teardown *)

Lemma bind_Raise {A B} (m : M A) (f : A → M B) (h h' : Hass) (e : exn) :
  m h = (Raise e, h') → bind m f h = (Raise e, h').
Proof. intros Hm. unfold bind. by rewrite Hm. Qed.

Lemma subscript_None (d : gmap string string) (key : string) (h : Hass) :
  d !! key = None → subscript d key h = (Raise (Exn KeyError key None), h).
Proof. intros Hv. unfold subscript. by rewrite Hv. Qed.

Lemma truthy_opt_Some_true (v : string) :
  v ≠ EmptyString → truthy_opt (Some v) = true.
Proof. intros Hne. simpl. by rewrite (proj2 (String.eqb_neq _ _) Hne). Qed.

(** Setup of an instance whose entry holds a non-empty user name,
    password, home station and home city returns [True]: a coordinator is
    stored under the entry id and the services are registered, nothing is
    logged, and the transit client receives no query. *)
Theorem async_setup_entry_complete (entry : ConfigEntry) (u p hs hc : string)
    (h : Hass) :
  entry_data entry !! CONF_USERNAME = Some u → u ≠ EmptyString →
  entry_data entry !! CONF_PASSWORD = Some p → p ≠ EmptyString →
  entry_data entry !! "home_station" = Some hs → hs ≠ EmptyString →
  entry_data entry !! "home_city" = Some hc → hc ≠ EmptyString →
  ∃ h1,
    async_setup_entry entry h = (Ok true, h1) ∧
    gti_calls h1 = gti_calls h ∧
    records h1 = records h ∧
    services h1 = true ∧
    lookup_coordinator h1 (Some (entry_id entry)) = Some (length (objects h)) ∧
    objects h1 !! length (objects h)
    = Some (initial_coordinator u p hs hc).
Proof.
  intros Hu Hune Hp Hpne Hhs Hhsne Hhc Hhcne.
  exists (configured_state entry u p hs hc h). split.
  - unfold async_setup_entry. apply try_except_Ok.
    rewrite (bind_Ok _ _ _ _ _ (subscript_Some _ _ _ h Hu)).
    rewrite (bind_Ok _ _ _ _ _ (subscript_Some _ _ _ h Hp)).
    rewrite Hhs, Hhc. unfold forallb.
    rewrite !truthy_opt_Some_true by done. unfold andb, negb.
    simpl default. unfold new_coordinator, alloc, bind at 1.
    erewrite bind_Ok
      by (by apply first_refresh_skipped
               with (c := initial_coordinator u p hs hc);
            [apply new_coordinator_lookup |]).
    unfold store_coordinator at 1, bind at 1.
    unfold async_forward_entry_setups.
    erewrite bind_Ok
      by (apply try_except_Ok;
          by apply sensor_async_setup_entry_Ok with (u := u) (p := p)).
    reflexivity.
  - destruct (configured_state_lookup entry u p hs hc h)
      as (Hstored & _ & _ & Hobj & _).
    repeat split; try done.
Qed.

(** Setup of an instance whose entry holds the two credential keys but in
    which the user name, the password, the home station or the home city
    is empty, or a home key is absent, returns [False]: the one thing it
    does is to log "Missing configuration parameters". *)
Theorem async_setup_entry_incomplete (entry : ConfigEntry) (u p : string)
    (h : Hass) :
  entry_data entry !! CONF_USERNAME = Some u →
  entry_data entry !! CONF_PASSWORD = Some p →
  u = EmptyString ∨ p = EmptyString
  ∨ truthy_opt (entry_data entry !! "home_station") = false
  ∨ truthy_opt (entry_data entry !! "home_city") = false →
  async_setup_entry entry h
  = (Ok false, add_record (ERROR, "Missing configuration parameters") h).
Proof.
  intros Hu Hp Hmissing.
  unfold async_setup_entry. apply try_except_Ok.
  rewrite (bind_Ok _ _ _ _ _ (subscript_Some _ _ _ h Hu)).
  rewrite (bind_Ok _ _ _ _ _ (subscript_Some _ _ _ h Hp)).
  assert (Hall : forallb truthy_opt
                   [Some u; Some p; entry_data entry !! "home_station";
                    entry_data entry !! "home_city"] = false).
  { simpl forallb.
    destruct Hmissing as [-> | [-> | [Hhs | Hhc]]].
    - done.
    - simpl. by rewrite andb_false_r.
    - rewrite Hhs. by rewrite !andb_false_r.
    - rewrite Hhc. by rewrite !andb_false_r. }
  by rewrite Hall.
Qed.

(** Setup of an instance whose entry lacks the user name key or the
    password key raises [ConfigEntryNotReady] with the KeyError as cause;
    it creates no coordinator and stores nothing: the one thing it does
    to the host is to log the error. *)
Theorem async_setup_entry_missing_credentials (entry : ConfigEntry) (h : Hass) :
  entry_data entry !! CONF_USERNAME = None
  ∨ entry_data entry !! CONF_PASSWORD = None →
  ∃ key,
    async_setup_entry entry h
    = (Raise (Exn ConfigEntryNotReady ("Could not connect to HVV: " ++ key)
                (Some (Exn KeyError key None))),
       add_record (ERROR, "Error setting up HVV integration: " ++ key) h).
Proof.
  intros Hmissing. unfold async_setup_entry, try_except.
  destruct (entry_data entry !! CONF_USERNAME) as [u |] eqn:Hu.
  - destruct Hmissing as [? | Hp]; [done |]. exists CONF_PASSWORD.
    rewrite (bind_Ok _ _ _ _ _ (subscript_Some _ _ _ h Hu)).
    by rewrite (bind_Raise _ _ _ _ _ (subscript_None _ _ h Hp)).
  - exists CONF_USERNAME.
    by rewrite (bind_Raise _ _ _ _ _ (subscript_None _ _ h Hu)).
Qed.

(** The setup of the sensor platform for an entry that lacks one of the
    four keys raises [ConfigEntryNotReady]; it creates no coordinator and
    adds no entity: the one thing it does to the host is to log the
    error. *)
Theorem sensor_async_setup_entry_missing_key (entry : ConfigEntry) (h : Hass) :
  (∃ key, key ∈ [CONF_USERNAME; CONF_PASSWORD; "home_station"; "home_city"] ∧
          entry_data entry !! key = None) →
  ∃ key,
    sensor_async_setup_entry entry h
    = (Raise (Exn ConfigEntryNotReady ("Setup failed: " ++ key) None),
       add_record (ERROR, "Failed to setup sensor: " ++ key) h).
Proof.
  intros (key & Hin & Hkey). unfold sensor_async_setup_entry, try_except.
  destruct (entry_data entry !! CONF_USERNAME) as [u |] eqn:Hu.
  2:{ exists CONF_USERNAME.
      by rewrite (bind_Raise _ _ _ _ _ (subscript_None _ _ h Hu)). }
  rewrite (bind_Ok _ _ _ _ _ (subscript_Some _ _ _ h Hu)).
  destruct (entry_data entry !! CONF_PASSWORD) as [p |] eqn:Hp.
  2:{ exists CONF_PASSWORD.
      by rewrite (bind_Raise _ _ _ _ _ (subscript_None _ _ h Hp)). }
  rewrite (bind_Ok _ _ _ _ _ (subscript_Some _ _ _ h Hp)).
  destruct (entry_data entry !! "home_station") as [hs |] eqn:Hhs.
  2:{ exists "home_station".
      by rewrite (bind_Raise _ _ _ _ _ (subscript_None _ _ h Hhs)). }
  rewrite (bind_Ok _ _ _ _ _ (subscript_Some _ _ _ h Hhs)).
  destruct (entry_data entry !! "home_city") as [hc |] eqn:Hhc.
  2:{ exists "home_city".
      by rewrite (bind_Raise _ _ _ _ _ (subscript_None _ _ h Hhc)). }
  exfalso. repeat (apply elem_of_cons in Hin as [-> | Hin]; [congruence |]).
  by apply not_elem_of_nil in Hin.
Qed.

(** The host state a teardown leaves when the platforms unload and the
    key DOMAIN is there. *)
Lemma async_unload_entry_removes_state (entry : ConfigEntry) (h : Hass)
    (coordinators : gmap string nat) :
  domain_data h = Some coordinators →
  platforms_unload entry h = true →
  ∃ h',
    async_unload_entry entry h = (Ok true, h') ∧
    domain_data h'
    = (if bool_decide (delete (entry_id entry) coordinators = ∅) then None
       else Some (delete (entry_id entry) coordinators)) ∧
    objects h' = objects h ∧
    entity_registry h' = entity_registry h ∧
    gti_calls h' = gti_calls h ∧
    records h' = records h.
Proof.
  intros Hdom Hok.
  unfold async_unload_entry, async_unload_platforms, bind, get_hass.
  rewrite Hok. simpl. rewrite Hdom.
  case_bool_decide as Hempty; simpl; eexists; (split; [reflexivity |]); done.
Qed.

(** Teardown of an instance whose platforms unload removes its coordinator
    from the storage and leaves the coordinators of the other instances
    where they were; when none is left the key DOMAIN is removed; no
    coordinator object is changed. *)
Theorem async_unload_entry_removes (entry : ConfigEntry) (h : Hass)
    (coordinators : gmap string nat) :
  domain_data h = Some coordinators →
  platforms_unload entry h = true →
  ∃ h',
    async_unload_entry entry h = (Ok true, h') ∧
    lookup_coordinator h' (Some (entry_id entry)) = None ∧
    (∀ k, k ≠ entry_id entry →
          lookup_coordinator h' (Some k) = lookup_coordinator h (Some k)) ∧
    (delete (entry_id entry) coordinators = ∅ → domain_data h' = None) ∧
    objects h' = objects h ∧
    entity_registry h' = entity_registry h.
Proof.
  intros Hdom Hok.
  destruct (async_unload_entry_removes_state entry h coordinators Hdom Hok)
    as (h' & Hrun & Hdom' & Hobj & Hreg & _).
  exists h'. split; [exact Hrun |].
  unfold lookup_coordinator. rewrite Hdom, Hdom'.
  case_bool_decide as Hempty.
  - repeat split; try done.
    intros k Hne.
    rewrite <- (lookup_delete_ne coordinators (entry_id entry) k) by done.
    by rewrite Hempty.
  - repeat split; try done.
    + apply lookup_delete_eq.
    + intros k Hne. by apply lookup_delete_ne.
Qed.

(** After the teardown of an instance, a call of the route-setting
    command for its sensor finds no coordinator: it logs the warning,
    sends no query and leaves every coordinator object as it was. *)
Theorem set_route_after_unload (entry : ConfigEntry) (call : ServiceCall)
    (entity_id : string) (h : Hass) (coordinators : gmap string nat) :
  domain_data h = Some coordinators →
  platforms_unload entry h = true →
  entity_registry h !! entity_id = Some (Some (entry_id entry)) →
  target_ids call = [entity_id] →
  ∃ h1 h2,
    async_unload_entry entry h = (Ok true, h1) ∧
    handle_set_route call h1 = (Ok tt, h2) ∧
    records h2
    = (records h
       ++ [(WARNING, ("No coordinator found for " ++ entity_id)%string)])%list ∧
    gti_calls h2 = gti_calls h ∧
    objects h2 = objects h.
Proof.
  intros Hdom Hok Hreg Hids.
  destruct (async_unload_entry_removes_state entry h coordinators Hdom Hok)
    as (h1 & Hrun & Hdom1 & Hobj1 & Hreg1 & Hcalls1 & Hrec1).
  assert (Hlook : lookup_coordinator h1 (Some (entry_id entry)) = None).
  { unfold lookup_coordinator. rewrite Hdom1.
    case_bool_decide; [done | apply lookup_delete_eq]. }
  exists h1, (add_record (WARNING, "No coordinator found for " ++ entity_id) h1).
  split; [exact Hrun |]. split.
  - unfold handle_set_route. rewrite Hids. simpl for_each.
    erewrite bind_Ok; [reflexivity |].
    unfold set_route_for. apply try_except_Ok.
    rewrite bind_get_hass, Hreg1, Hreg. by rewrite Hlook.
  - simpl. by rewrite Hrec1, Hcalls1, Hobj1.
Qed.

(** ** The config flow and the options flow *)

Section FlowProperties.

Variable gti_init : string → string → M unit.

Lemma config_flow_globals_lookup :
  config_flow_globals !! "AuthenticationError" = None ∧
  config_flow_globals !! "InvalidAuth" = Some InvalidAuth ∧
  config_flow_globals !! "CannotConnect" = Some CannotConnect ∧
  config_flow_globals !! "Exception" = Some Exception.
Proof. repeat split; reflexivity. Qed.

(** [validate_auth] in the module as it is: it returns when the probe
    returns, and raises [InvalidAuth] when the probe raises. *)
Lemma validate_auth_cases (username password : string) (h : Hass) :
  (∃ h1, validate_auth gti_init config_flow_globals username password h
         = (Ok tt, h1) ∧
         gti_init username password h = (Ok tt, h1))
  ∨ (∃ e h1 h2, gti_init username password h = (Raise e, h1) ∧
                validate_auth gti_init config_flow_globals username password h
                = (Raise (Exn InvalidAuth EmptyString None), h2)).
Proof.
  destruct config_flow_globals_lookup as (Hunbound & _).
  unfold validate_auth, try_except, try_except_named.
  destruct (gti_init username password h) as [[[] | e] h1] eqn:Hprobe.
  - left. by exists h1.
  - right. exists e, h1. eexists. split; [done |].
    unfold try_clauses, except_matches. rewrite Hunbound. reflexivity.
Qed.

Lemma on_host_subscript_Some (d : gmap string string) (key v : string)
    (auth : gmap string string) (h : Hass) :
  d !! key = Some v → on_host (subscript d key) auth h = (Ok v, (auth, h)).
Proof. intros Hv. unfold on_host. by rewrite (subscript_Some _ _ _ h Hv). Qed.

Lemma on_host_subscript_None (d : gmap string string) (key : string)
    (auth : gmap string string) (h : Hass) :
  d !! key = None →
  on_host (subscript d key) auth h = (Raise (Exn KeyError key None), (auth, h)).
Proof. intros Hv. unfold on_host. by rewrite (subscript_None _ _ h Hv). Qed.

Lemma fbind_Ok {A B} (m : Flow A) (f : A → Flow B)
    (auth auth' : gmap string string) (h h' : Hass) (a : A) :
  m auth h = (Ok a, (auth', h')) → fbind m f auth h = f a auth' h'.
Proof. intros Hm. unfold fbind. by rewrite Hm. Qed.

Lemma fbind_Raise {A B} (m : Flow A) (f : A → Flow B)
    (auth auth' : gmap string string) (h h' : Hass) (e : exn) :
  m auth h = (Raise e, (auth', h')) →
  fbind m f auth h = (Raise e, (auth', h')).
Proof. intros Hm. unfold fbind. by rewrite Hm. Qed.

(** What the user step does with a submitted form, by the keys the form
    holds and the outcome of the auth probe. *)
Lemma async_step_user_cases (user_input auth : gmap string string) (h : Hass) :
  let schema := [(CONF_USERNAME, None); (CONF_PASSWORD, None)] in
  (∃ key h', async_step_user gti_init (Some user_input) auth h
             = (Ok (ShowForm "user" schema {[ "base" := "unknown" ]}),
                (auth, h')) ∧
             user_input !! key = None ∧
             (key = CONF_USERNAME ∨ key = CONF_PASSWORD))
  ∨ (∃ u p e h1 h',
       user_input !! CONF_USERNAME = Some u ∧
       user_input !! CONF_PASSWORD = Some p ∧
       gti_init u p h = (Raise e, h1) ∧
       async_step_user gti_init (Some user_input) auth h
       = (Ok (ShowForm "user" schema {[ "base" := "invalid_auth" ]}),
          (auth, h')))
  ∨ (∃ u p h1,
       user_input !! CONF_USERNAME = Some u ∧
       user_input !! CONF_PASSWORD = Some p ∧
       gti_init u p h = (Ok tt, h1) ∧
       async_step_user gti_init (Some user_input) auth h
       = (Ok (ShowForm "home_location"
                [("home_station", None); ("home_city", None)] ∅),
          ({[ CONF_USERNAME := u; CONF_PASSWORD := p ]}, h1))).
Proof.
  intros schema.
  destruct config_flow_globals_lookup as (_ & Hia & Hcc & Hex).
  unfold async_step_user, flow_try.
  destruct (user_input !! CONF_USERNAME) as [u |] eqn:Hu.
  2:{ left. exists CONF_USERNAME. eexists. split; [| by split; [| left]].
      rewrite (fbind_Raise _ _ _ _ _ _ _ (on_host_subscript_None _ _ auth h Hu)).
      unfold flow_clauses, except_matches. rewrite Hia, Hcc, Hex.
      reflexivity. }
  rewrite (fbind_Ok _ _ _ _ _ _ _ (on_host_subscript_Some _ _ _ auth h Hu)).
  destruct (user_input !! CONF_PASSWORD) as [p |] eqn:Hp.
  2:{ left. exists CONF_PASSWORD. eexists. split; [| by split; [| right]].
      rewrite (fbind_Raise _ _ _ _ _ _ _ (on_host_subscript_None _ _ auth h Hp)).
      unfold flow_clauses, except_matches. rewrite Hia, Hcc, Hex.
      reflexivity. }
  rewrite (fbind_Ok _ _ _ _ _ _ _ (on_host_subscript_Some _ _ _ auth h Hp)).
  right.
  destruct (validate_auth_cases u p h)
    as [(h1 & Hval & Hprobe) | (e & h1 & h2 & Hprobe & Hval)].
  - right. exists u, p, h1. repeat split; try done.
    unfold fbind at 1, on_host at 1. rewrite Hval.
    rewrite (fbind_Ok _ _ _ _ _ _ _ (on_host_subscript_Some _ _ _ auth h1 Hu)).
    rewrite (fbind_Ok _ _ _ _ _ _ _ (on_host_subscript_Some _ _ _ auth h1 Hp)).
    reflexivity.
  - left. exists u, p, e, h1, h2. repeat split; try done.
    unfold fbind at 1, on_host at 1. rewrite Hval.
    unfold flow_clauses, except_matches. rewrite Hia. reflexivity.
Qed.

(** Whatever is submitted and whatever the auth probe does, the user step
    returns a form; it never raises, never creates an entry, and the form
    never carries the error "cannot_connect". *)
Theorem async_step_user_never_cannot_connect
    (user_input : option (gmap string string)) (auth : gmap string string)
    (h : Hass) :
  ∃ step schema errors,
    fst (async_step_user gti_init user_input auth h)
    = Ok (ShowForm step schema errors) ∧
    errors !! "base" ≠ Some "cannot_connect".
Proof.
  destruct user_input as [user_input |].
  - destruct (async_step_user_cases user_input auth h)
      as [(key & h' & -> & _) | [(u & p & e & h1 & h' & _ & _ & _ & ->)
                                | (u & p & h1 & _ & _ & _ & ->)]];
      eexists _, _, _; (split; [reflexivity |]);
      by (rewrite ?lookup_singleton_eq, ?lookup_empty).
  - eexists _, _, _. split; [reflexivity |]. by rewrite lookup_empty.
Qed.

(** A submitted form with both credentials whose auth probe fails gives
    the user form again, with the error "invalid_auth"; the credentials
    are not kept. *)
Theorem async_step_user_probe_fails (user_input auth : gmap string string)
    (u p : string) (h h1 : Hass) (e : exn) :
  user_input !! CONF_USERNAME = Some u →
  user_input !! CONF_PASSWORD = Some p →
  gti_init u p h = (Raise e, h1) →
  ∃ h',
    async_step_user gti_init (Some user_input) auth h
    = (Ok (ShowForm "user" [(CONF_USERNAME, None); (CONF_PASSWORD, None)]
             {[ "base" := "invalid_auth" ]}),
       (auth, h')).
Proof.
  intros Hu Hp Hprobe.
  destruct (async_step_user_cases user_input auth h)
    as [(key & h' & _ & Hkey & [-> | ->])
       | [(u' & p' & e' & h1' & h' & _ & _ & _ & Hrun)
         | (u' & p' & h1' & Hu' & Hp' & Hprobe' & _)]].
  - congruence.
  - congruence.
  - by exists h'.
  - congruence.
Qed.

(** A submitted form with both credentials whose auth probe returns
    stores the credentials in the flow and goes on to the home-location
    form, without errors. *)
Theorem async_step_user_probe_returns (user_input auth : gmap string string)
    (u p : string) (h h1 : Hass) :
  user_input !! CONF_USERNAME = Some u →
  user_input !! CONF_PASSWORD = Some p →
  gti_init u p h = (Ok tt, h1) →
  async_step_user gti_init (Some user_input) auth h
  = (Ok (ShowForm "home_location"
           [("home_station", None); ("home_city", None)] ∅),
     ({[ CONF_USERNAME := u; CONF_PASSWORD := p ]}, h1)).
Proof.
  intros Hu Hp Hprobe.
  destruct (async_step_user_cases user_input auth h)
    as [(key & h' & _ & Hkey & [-> | ->])
       | [(u' & p' & e' & h1' & h' & Hu' & Hp' & Hprobe' & _)
         | (u' & p' & h1' & Hu' & Hp' & Hprobe' & Hrun)]].
  - congruence.
  - congruence.
  - congruence.
  - rewrite Hrun. congruence.
Qed.

(** The home-location step with a submitted form that holds both keys
    creates the entry: its title names the home station and its data are
    the credentials of the flow together with the home station and the
    home city. *)
Lemma async_step_home_location_creates (user_input auth : gmap string string)
    (hs hc : string) (h : Hass) :
  user_input !! "home_station" = Some hs →
  user_input !! "home_city" = Some hc →
  async_step_home_location (Some user_input) auth h
  = (Ok (CreateEntry ("HVV Routes: " ++ hs)
           (<["home_city" := hc]> (<["home_station" := hs]> auth))),
     (auth, h)).
Proof.
  intros Hhs Hhc. unfold async_step_home_location.
  unfold fbind at 1, get_auth_data.
  rewrite (fbind_Ok _ _ _ _ _ _ _ (on_host_subscript_Some _ _ _ auth h Hhs)).
  rewrite (fbind_Ok _ _ _ _ _ _ _ (on_host_subscript_Some _ _ _ auth h Hhc)).
  by rewrite (fbind_Ok _ _ _ _ _ _ _ (on_host_subscript_Some _ _ _ auth h Hhs)).
Qed.

(** The two steps of the config flow, one after the other, with an auth
    probe that returns: the entry that is created holds the submitted
    user name, password, home station and home city under their four
    keys, and nothing else. *)
Theorem config_flow_creates_entry (credentials home auth : gmap string string)
    (u p hs hc : string) (h h1 : Hass) :
  credentials !! CONF_USERNAME = Some u →
  credentials !! CONF_PASSWORD = Some p →
  home !! "home_station" = Some hs →
  home !! "home_city" = Some hc →
  gti_init u p h = (Ok tt, h1) →
  ∃ data,
    fbind (async_step_user gti_init (Some credentials))
      (fun _ => async_step_home_location (Some home)) auth h
    = (Ok (CreateEntry ("HVV Routes: " ++ hs) data),
       ({[ CONF_USERNAME := u; CONF_PASSWORD := p ]}, h1)) ∧
    data !! CONF_USERNAME = Some u ∧
    data !! CONF_PASSWORD = Some p ∧
    data !! "home_station" = Some hs ∧
    data !! "home_city" = Some hc ∧
    ∀ key, key ∉ [CONF_USERNAME; CONF_PASSWORD; "home_station"; "home_city"] →
           data !! key = None.
Proof.
  clear getRoute entity_id_for platforms_unload.
  intros Hu Hp Hhs Hhc Hprobe.
  destruct (async_step_user_cases credentials auth h)
    as [(key & h' & _ & Hkey & [-> | ->])
       | [(u' & p' & e' & h1' & h' & Hu' & Hp' & Hprobe' & _)
         | (u' & p' & h1' & Hu' & Hp' & Hprobe' & Hrun)]];
    try congruence.
  assert (u' = u) as -> by congruence.
  assert (p' = p) as -> by congruence.
  assert (h1' = h1) as -> by congruence.
  eexists. split.
  - rewrite (fbind_Ok _ _ _ _ _ _ _ Hrun).
    by apply async_step_home_location_creates.
  - unfold CONF_USERNAME, CONF_PASSWORD.
    split; [reflexivity |]. split; [reflexivity |].
    split; [reflexivity |]. split; [reflexivity |].
    intros key Hkey.
    assert (Hne : ∀ k, k ∈ ["username"; "password"; "home_station"; "home_city"]
                       → k ≠ key) by (by intros k Hk <-).
    rewrite !lookup_insert_ne
      by (apply Hne; apply list_elem_of_In; simpl; tauto).
    apply lookup_singleton_ne. apply Hne. apply list_elem_of_In. simpl. tauto.
Qed.

(** An entry that holds what the config flow stores, with none of the
    four values empty, sets up: [async_setup_entry] returns [True]. *)
Theorem config_flow_entry_sets_up (credentials home auth : gmap string string)
    (u p hs hc : string) (h h1 host : Hass) (id : string) :
  credentials !! CONF_USERNAME = Some u → u ≠ EmptyString →
  credentials !! CONF_PASSWORD = Some p → p ≠ EmptyString →
  home !! "home_station" = Some hs → hs ≠ EmptyString →
  home !! "home_city" = Some hc → hc ≠ EmptyString →
  gti_init u p h = (Ok tt, h1) →
  ∃ title data,
    fst (fbind (async_step_user gti_init (Some credentials))
           (fun _ => async_step_home_location (Some home)) auth h)
    = Ok (CreateEntry title data) ∧
    fst (async_setup_entry {| entry_id := id; entry_data := data |} host)
    = Ok true.
Proof.
  intros Hu Hune Hp Hpne Hhs Hhsne Hhc Hhcne Hprobe.
  destruct (async_step_user_cases credentials auth h)
    as [(key & h' & _ & Hkey & [-> | ->])
       | [(u' & p' & e' & h1' & h' & Hu' & Hp' & Hprobe' & _)
         | (u' & p' & h1' & Hu' & Hp' & Hprobe' & Hrun)]];
    try congruence.
  assert (u' = u) as -> by congruence.
  assert (p' = p) as -> by congruence.
  eexists _, _. split.
  - rewrite (fbind_Ok _ _ _ _ _ _ _ Hrun).
    by rewrite (async_step_home_location_creates home _ hs hc).
  - set (data := <["home_city" := hc]> (<["home_station" := hs]>
                   ({[ CONF_USERNAME := u; CONF_PASSWORD := p ]}
                    : gmap string string))).
    assert (Hdata : data !! CONF_USERNAME = Some u ∧
                    data !! CONF_PASSWORD = Some p ∧
                    data !! "home_station" = Some hs ∧
                    data !! "home_city" = Some hc).
    { unfold data, CONF_USERNAME, CONF_PASSWORD. repeat split; reflexivity. }
    destruct Hdata as (Hdu & Hdp & Hdhs & Hdhc).
    unfold async_setup_entry. simpl entry_data.
    erewrite try_except_Ok; [reflexivity |].
    rewrite (bind_Ok _ _ _ _ _ (subscript_Some _ _ _ host Hdu)).
    rewrite (bind_Ok _ _ _ _ _ (subscript_Some _ _ _ host Hdp)).
    rewrite Hdhs, Hdhc. unfold forallb.
    rewrite !truthy_opt_Some_true by done. unfold andb, negb.
    simpl default. unfold new_coordinator, alloc, bind at 1.
    erewrite bind_Ok
      by (by apply first_refresh_skipped
               with (c := initial_coordinator u p hs hc);
            [apply new_coordinator_lookup |]).
    unfold store_coordinator at 1, bind at 1.
    unfold async_forward_entry_setups.
    erewrite bind_Ok
      by (apply try_except_Ok;
          by apply sensor_async_setup_entry_Ok
               with (u := u) (p := p) (hs := hs) (hc := hc)).
    reflexivity.
Qed.

End FlowProperties.

(** The options step with a submitted form never returns: it raises
    TypeError from the call of [validate_auth], or KeyError when the form
    lacks a credential key; no entry is created and the host is as it
    was. *)
Theorem async_step_init_raises (config_entry : ConfigEntry)
    (user_input : gmap string string) (h : Hass) :
  ∃ e,
    async_step_init config_entry (Some user_input) h = (Raise e, h) ∧
    (exn_cls e = TypeError ∨ exn_cls e = KeyError).
Proof.
  unfold async_step_init.
  destruct (user_input !! CONF_USERNAME) as [u |] eqn:Hu.
  2:{ eexists. rewrite (bind_Raise _ _ _ _ _ (subscript_None _ _ h Hu)).
      split; [reflexivity | by right]. }
  rewrite (bind_Ok _ _ _ _ _ (subscript_Some _ _ _ h Hu)).
  destruct (user_input !! CONF_PASSWORD) as [p |] eqn:Hp.
  2:{ eexists. rewrite (bind_Raise _ _ _ _ _ (subscript_None _ _ h Hp)).
      split; [reflexivity | by right]. }
  rewrite (bind_Ok _ _ _ _ _ (subscript_Some _ _ _ h Hp)).
  eexists. split; [reflexivity | by left].
Qed.

End Integration.

(** ** Credential validation *)

Section ConfigFlowProperties.

Variable gti_init : string → string → M unit.

Lemma AuthenticationError_unbound :
  config_flow_globals !! "AuthenticationError" = None.
Proof. reflexivity. Qed.

(** C3 (what the code does).  In the module as it is written, every
    failure of the auth probe reaches the caller of [validate_auth] as
    [InvalidAuth]: matching the failure against the first [except] clause
    raises NameError, which the outer handler turns into [InvalidAuth].
    A network failure is no exception to this. *)
Theorem validate_auth_failure_is_InvalidAuth (username password : string)
    (h h1 : Hass) (e : exn) :
  gti_init username password h = (Raise e, h1) →
  fst (validate_auth gti_init config_flow_globals username password h)
  = Raise (Exn InvalidAuth EmptyString None).
Proof.
  intros Hprobe.
  unfold validate_auth, try_except, try_except_named. rewrite Hprobe.
  unfold try_clauses, except_matches. by rewrite AuthenticationError_unbound.
Qed.

(** Whatever exception classes the two names are bound to, [CannotConnect]
    does not leave [validate_auth]: the clause that raises it sits inside
    the [try] whose handler turns every Exception into [InvalidAuth]. *)
Lemma validate_auth_never_CannotConnect (globals : gmap string exn_class)
    (username password : string) (h : Hass) (e : exn) :
  fst (validate_auth gti_init globals username password h) = Raise e →
  exn_cls e ≠ CannotConnect.
Proof.
  unfold validate_auth, try_except.
  destruct (try_except_named globals _ _ h) as [[[] | e0] h0]; [done |].
  destruct (isinstance e0 Exception) eqn:Hcls; simpl.
  - by intros [= <-].
  - intros [= <-] Hcc. unfold isinstance in Hcls. by rewrite Hcc in Hcls.
Qed.

End ConfigFlowProperties.
(** ** The properties on the scenario *)

Lemma refresh_without_destination_witness :
  objects (hass_with fresh_coordinator) !! 0 = Some fresh_coordinator ∧
  _async_update_data answering_client 0 (hass_with fresh_coordinator)
  = (Ok VNone, hass_with fresh_coordinator).
Proof.
  split; [reflexivity |].
  apply (refresh_without_destination answering_client 0
           (hass_with fresh_coordinator) fresh_coordinator);
    [reflexivity | left; left; reflexivity].
Defined.

Lemma empty_response_is_fetch_failure_witness :
  ∃ e h1,
    _async_update_data empty_client 0 (hass_with altona_coordinator)
    = (Raise e, h1) ∧ exn_cls e = UpdateFailed.
Proof.
  destruct (empty_response_is_fetch_failure empty_client 0
              (hass_with altona_coordinator) altona_coordinator (VDict []))
    as [Hempty _]; [reflexivity | reflexivity | reflexivity | reflexivity |].
  destruct Hempty as (e & h1 & Hrun & Hcls & _); [reflexivity |].
  by exists e, h1.
Defined.

(** C7, counterexample.  The coordinator has the destination Altona,
    Hamburg; the transit client answers with a valid response that holds
    no journeys.  The update attempt returns the response, it raises
    nothing; the refresh stores it as a successful result, and the state
    of the sensor is "No Routes Found". *)
Lemma zero_journeys_is_not_fetch_failure :
  let h := hass_with altona_coordinator in
  let h' := snd (async_refresh zero_journey_client 0 h) in
  fst (_async_update_data zero_journey_client 0 h) = Ok zero_journey_payload ∧
  (∀ e, fst (_async_update_data zero_journey_client 0 h) ≠ Raise e) ∧
  last_update_success <$> objects h' !! 0 = Some true ∧
  data <$> objects h' !! 0 = Some zero_journey_payload ∧
  fst (state example_sensor h') = Ok (VStr "No Routes Found").
Proof. vm_compute. repeat split. discriminate. Qed.

Lemma set_destination_refreshes_witness :
  ∃ h' co',
    set_destination answering_client 0 (Some "Altona") (Some "Hamburg")
      (hass_with fresh_coordinator) = (Ok tt, h') ∧
    objects h' !! 0 = Some co' ∧
    _dest_station co' = Some "Altona" ∧ _dest_city co' = Some "Hamburg".
Proof.
  destruct (set_destination_refreshes answering_client 0
              (Some "Altona") (Some "Hamburg")
              (hass_with fresh_coordinator) fresh_coordinator)
    as (r & h1 & co' & _ & Hrun & Hco' & Hs & Hc & _); [reflexivity |].
  by eexists _, co'.
Defined.

Lemma set_departure_time_frame_witness :
  ∃ h' co',
    set_departure_time failing_client 0 "08:30" (hass_with altona_coordinator)
    = (Ok tt, h') ∧
    objects h' !! 0 = Some co' ∧
    _dest_station co' = Some "Altona" ∧ _dest_city co' = Some "Hamburg".
Proof.
  destruct (set_departure_time_frame failing_client 0 "08:30"
              (hass_with altona_coordinator) altona_coordinator)
    as (h' & co' & Hrun & Hco' & Hs & Hc & _); [reflexivity |].
  by exists h', co'.
Defined.

(** C2, counterexample.  The coordinator has the destination Altona,
    Hamburg and no payload; the transit client cannot connect.  The
    refresh ends in a fetch failure, and the state of the sensor is
    "No Destination Set", not "Error". *)
Lemma state_after_failure_not_Error :
  let h' := snd (async_refresh failing_client 0 (hass_with altona_coordinator)) in
  fst (async_refresh failing_client 0 (hass_with altona_coordinator)) = Ok tt ∧
  last_update_success <$> objects h' !! 0 = Some false ∧
  fst (state example_sensor h') = Ok (VStr "No Destination Set") ∧
  fst (state example_sensor h') ≠ Ok (VStr "Error").
Proof. vm_compute. repeat split; discriminate. Qed.

Lemma state_after_failed_refresh_witness :
  let h := hass_with altona_coordinator in
  let h' := snd (async_refresh failing_client 0 h) in
  fst (state example_sensor h') = fst (state example_sensor h).
Proof.
  intros h h'.
  refine (proj1 (proj2 (state_after_failed_refresh failing_client example_sensor
            h h' altona_coordinator
            (default altona_coordinator (objects h' !! 0)) _ _ _ _)));
    reflexivity.
Defined.

Lemma attributes_empty_on_empty_legs_witness :
  fst (extra_state_attributes example_sensor
         (hass_with (assign_update payload_with_empty_legs true None
                       altona_coordinator)))
  = Ok (VDict []).
Proof.
  apply (attributes_empty_on_empty_legs example_sensor _
           (assign_update payload_with_empty_legs true None altona_coordinator)
           [("returnCode", VStr "OK");
            ("realtimeSchedules",
             VList [example_journey "12" [example_leg];
                    example_journey "15" [];
                    example_journey "21" [example_leg]])]
           [("time", VStr "15");
            ("plannedDepartureTime", VStr "12:04");
            ("plannedArrivalTime", VStr "12:16");
            ("scheduleElements", VList [])]
           [example_journey "12" [example_leg]]
           [example_journey "21" [example_leg]]);
    reflexivity.
Defined.

Lemma handle_set_route_isolates_failures_witness :
  ∃ h',
    handle_set_route answering_client example_batch_call
      (hass_with fresh_coordinator) = (Ok tt, h') ∧
    (WARNING, "No entity found for sensor.unknown") ∈ records h' ∧
    ∃ co', objects h' !! 0 = Some co' ∧
           _dest_station co' = Some "Altona" ∧ _dest_city co' = Some "Hamburg".
Proof.
  destruct (handle_set_route_isolates_failures answering_client
              example_batch_call (hass_with fresh_coordinator))
    as (h' & Hrun & Hout).
  exists h'. split; [exact Hrun |]. split.
  - apply (Hout "sensor.unknown"). apply list_elem_of_In. simpl. tauto.
  - destruct (Hout "sensor.hvv_route_entry1") as (co' & Hco' & Hs & Hc & _).
    + apply list_elem_of_In. simpl. tauto.
    + by exists co'.
Defined.

(** C6, at the failing input.  The call carries no departure_time and
    the coordinator holds the departure-time override 08:30.  When the
    handler has returned the override is "currenttime" and the transit
    client has received two queries, one for each refresh, the second for
    the time "currenttime": [set_departure_time] was called. *)
Lemma set_route_without_time_sets_departure_time :
  let h := hass_with timed_coordinator in
  let h' := snd (handle_set_route answering_client example_call h) in
  call_departure_time example_call = None ∧
  _departure_time <$> objects h !! 0 = Some (Some "08:30") ∧
  _departure_time <$> objects h' !! 0 = Some (Some "currenttime") ∧
  time_time <$> gti_calls h' = ["08:30"; "currenttime"].
Proof. vm_compute. repeat split. Qed.

Lemma set_route_default_departure_time_witness :
  _departure_time timed_coordinator = Some "08:30" ∧
  ∃ h',
    handle_set_route answering_client example_call (hass_with timed_coordinator)
    = (Ok tt, h') ∧
    ∃ co', objects h' !! 0 = Some co' ∧
           _departure_time co' = Some "currenttime".
Proof.
  split; [reflexivity |].
  destruct (set_route_default_departure_time answering_client example_call
              (hass_with timed_coordinator)) as (h' & Hrun & Hout);
    [reflexivity |].
  exists h'. split; [exact Hrun |].
  destruct (Hout "sensor.hvv_route_entry1" (Some "entry1") 0 timed_coordinator)
    as (_ & co' & Hco' & _ & _ & Ht);
    [apply list_elem_of_In; simpl; tauto | reflexivity | reflexivity
    | reflexivity |].
  by exists co'.
Defined.

Lemma set_route_misses_sensor_coordinator_witness :
  let h1 := snd (async_setup_entry answering_client example_entity_id
                   example_entry empty_hass) in
  ∃ h2 sensor stored,
    handle_set_route answering_client example_call h1 = (Ok tt, h2) ∧
    entities h2 !! "sensor.hvv_route_entry1" = Some sensor ∧
    lookup_coordinator h2 (Some "entry1") = Some stored ∧
    coordinator sensor ≠ stored ∧
    fst (state sensor h2) = Ok (VStr "No Destination Set").
Proof.
  intros h1.
  destruct (set_route_misses_sensor_coordinator answering_client
              example_entity_id example_entry example_call empty_hass h1)
    as (h2 & sensor & stored & Hrun & Hent & _ & Hstored & Hne & _ & _ & Hstate);
    [reflexivity | reflexivity |].
  by exists h2, sensor, stored.
Defined.

Lemma validate_auth_failure_is_InvalidAuth_witness :
  fst (validate_auth unreachable_probe config_flow_globals "user" "secret"
         empty_hass)
  = Raise (Exn InvalidAuth EmptyString None).
Proof.
  apply (validate_auth_failure_is_InvalidAuth unreachable_probe "user" "secret"
           empty_hass empty_hass
           (Exn ClientConnectionError "Cannot connect to host" None)).
  reflexivity.
Defined.

(** ** The further properties on the scenario *)

Lemma state_first_schedule_witness :
  fst (state example_sensor (hass_with (coordinator_with example_payload)))
  = Ok (VStr "12").
Proof.
  apply (state_first_schedule example_sensor
           (hass_with (coordinator_with example_payload))
           (coordinator_with example_payload)
           [("returnCode", VStr "OK");
            ("realtimeSchedules", VList [example_journey "12" [example_leg]])]
           [("time", VStr "12");
            ("plannedDepartureTime", VStr "12:04");
            ("plannedArrivalTime", VStr "12:16");
            ("scheduleElements", VList [example_leg])]
           []); reflexivity.
Defined.

Lemma state_no_routes_witness :
  fst (state example_sensor
         (hass_with (coordinator_with (VDict [("returnCode", VStr "OK")]))))
  = Ok (VStr "No Routes Found").
Proof.
  apply (state_no_routes example_sensor _
           (coordinator_with (VDict [("returnCode", VStr "OK")]))
           [("returnCode", VStr "OK")]);
    [reflexivity | reflexivity | discriminate | left; reflexivity].
Defined.

Lemma state_error_on_malformed_payload_witness :
  fst (state example_sensor
         (hass_with (coordinator_with (VList [VStr "busy"]))))
  = Ok (VStr "Error").
Proof.
  apply (state_error_on_malformed_payload example_sensor _
           (coordinator_with (VList [VStr "busy"])));
    [reflexivity | reflexivity | discriminate].
Defined.

Lemma attributes_routes_witness :
  length [route_entry
            [("time", VStr "12");
             ("plannedDepartureTime", VStr "12:04");
             ("plannedArrivalTime", VStr "12:16");
             ("scheduleElements", VList [example_leg])]
            [("name", VStr "S1"); ("direction", VStr "Wedel")]]
  = length [example_journey "12" [example_leg]] ∧
  fst (extra_state_attributes example_sensor
         (hass_with (coordinator_with example_payload)))
  = Ok (VDict
          (config_echo (coordinator_with example_payload)
           ++ [("routes",
                VList [route_entry
                         [("time", VStr "12");
                          ("plannedDepartureTime", VStr "12:04");
                          ("plannedArrivalTime", VStr "12:16");
                          ("scheduleElements", VList [example_leg])]
                         [("name", VStr "S1"); ("direction", VStr "Wedel")]])])).
Proof.
  refine (attributes_routes example_sensor
            (hass_with (coordinator_with example_payload))
            (coordinator_with example_payload)
            [("returnCode", VStr "OK");
             ("realtimeSchedules", VList [example_journey "12" [example_leg]])]
            [example_journey "12" [example_leg]] _ _ _ _ _);
    [reflexivity | reflexivity | reflexivity |].
  constructor; [| constructor].
  eexists _, _. split; [reflexivity |]. split; [| reflexivity].
  eexists _, _. split; reflexivity.
Defined.

Lemma refresh_query_witness :
  time_time <$> gti_calls (snd (_async_update_data answering_client 0
                                  (hass_with altona_coordinator)))
  = ["currenttime"].
Proof.
  rewrite (refresh_query answering_client 0 (hass_with altona_coordinator)
             altona_coordinator "Altona" "Hamburg");
    [reflexivity | reflexivity | reflexivity | discriminate | reflexivity
    | discriminate].
Defined.

Lemma refresh_client_failure_witness :
  ∃ h' c',
    async_refresh failing_client 0 (hass_with altona_coordinator) = (Ok tt, h') ∧
    objects h' !! 0 = Some c' ∧
    last_update_success c' = false.
Proof.
  destruct (refresh_client_failure failing_client 0
              (hass_with altona_coordinator) altona_coordinator
              Connectivity "Cannot connect to host")
    as (h' & c' & Hrun & Hc' & _ & Hfail & _);
    [reflexivity | reflexivity | reflexivity |].
  by exists h', c'.
Defined.

Lemma set_destination_shows_first_schedule_witness :
  ∃ h',
    set_destination answering_client 0 (Some "Altona") (Some "Hamburg")
      (hass_with fresh_coordinator) = (Ok tt, h') ∧
    fst (state example_sensor h') = Ok (VStr "12").
Proof.
  destruct (set_destination_shows_first_schedule answering_client
              example_sensor "Altona" "Hamburg" (hass_with fresh_coordinator)
              fresh_coordinator
              [("returnCode", VStr "OK");
               ("realtimeSchedules", VList [example_journey "12" [example_leg]])]
              [("time", VStr "12");
               ("plannedDepartureTime", VStr "12:04");
               ("plannedArrivalTime", VStr "12:16");
               ("scheduleElements", VList [example_leg])]
              [])
    as (h' & Hrun & _ & _ & _ & Hstate);
    [reflexivity | discriminate | discriminate | reflexivity | reflexivity |].
  by exists h'.
Defined.

Lemma attributes_after_failed_set_destination_witness :
  ∃ h',
    set_destination failing_client 0 (Some "Altona") (Some "Hamburg")
      (hass_with fresh_coordinator) = (Ok tt, h') ∧
    fst (extra_state_attributes example_sensor h')
    = Ok (VDict [("home_station", VStr "Hauptbahnhof");
                 ("home_city", VStr "Hamburg");
                 ("destination_station", VStr "Altona");
                 ("destination_city", VStr "Hamburg");
                 ("departure_time", VNone)]).
Proof.
  apply (attributes_after_failed_set_destination failing_client example_sensor
           (Some "Altona") (Some "Hamburg") (hass_with fresh_coordinator)
           fresh_coordinator Connectivity "Cannot connect to host");
    reflexivity.
Defined.

Lemma set_route_without_destination_witness :
  ∃ h',
    handle_set_route answering_client call_without_station
      (hass_with (coordinator_with example_payload)) = (Ok tt, h') ∧
    gti_calls h' = [] ∧
    fst (state example_sensor h') = Ok (VStr "No Destination Set").
Proof.
  destruct (set_route_without_destination answering_client call_without_station
              (hass_with (coordinator_with example_payload)))
    as (h' & Hrun & Hcalls & Hout); [left; reflexivity |].
  exists h'. split; [exact Hrun |]. split; [exact Hcalls |].
  apply (Hout "sensor.hvv_route_entry1" (Some "entry1") 0
           (coordinator_with example_payload));
    [apply list_elem_of_In; simpl; tauto | reflexivity | reflexivity
    | reflexivity | reflexivity].
Defined.

Lemma async_setup_entry_complete_witness :
  ∃ h1,
    async_setup_entry answering_client example_entity_id example_entry empty_hass
    = (Ok true, h1) ∧
    gti_calls h1 = [].
Proof.
  destruct (async_setup_entry_complete answering_client example_entity_id
              example_entry "user" "secret" "Hauptbahnhof" "Hamburg" empty_hass)
    as (h1 & Hrun & Hcalls & _);
    [reflexivity | discriminate | reflexivity | discriminate
    | reflexivity | discriminate | reflexivity | discriminate |].
  by exists h1.
Defined.

Lemma async_setup_entry_incomplete_witness :
  fst (async_setup_entry answering_client example_entity_id
         entry_with_empty_city empty_hass)
  = Ok false.
Proof.
  rewrite (async_setup_entry_incomplete answering_client example_entity_id
             entry_with_empty_city "user" "secret" empty_hass);
    [reflexivity | reflexivity | reflexivity
    | right; right; right; reflexivity].
Defined.

Lemma async_setup_entry_missing_credentials_witness :
  ∃ e, fst (async_setup_entry answering_client example_entity_id
              entry_without_password empty_hass) = Raise e ∧
       exn_cls e = ConfigEntryNotReady.
Proof.
  destruct (async_setup_entry_missing_credentials answering_client
              example_entity_id entry_without_password empty_hass)
    as (key & Hrun); [right; reflexivity |].
  rewrite Hrun. by eexists.
Defined.

Lemma sensor_async_setup_entry_missing_key_witness :
  ∃ e, fst (sensor_async_setup_entry answering_client example_entity_id
              entry_without_password empty_hass) = Raise e ∧
       exn_cls e = ConfigEntryNotReady.
Proof.
  destruct (sensor_async_setup_entry_missing_key answering_client
              example_entity_id entry_without_password empty_hass)
    as (key & Hrun).
  - exists "password". split; [| reflexivity].
    apply list_elem_of_In. simpl. tauto.
  - rewrite Hrun. by eexists.
Defined.

Lemma async_unload_entry_removes_witness :
  ∃ h',
    async_unload_entry example_entity_id always_unloads example_entry
      (hass_with fresh_coordinator) = (Ok true, h') ∧
    lookup_coordinator h' (Some "entry1") = None ∧
    domain_data h' = None.
Proof.
  destruct (async_unload_entry_removes example_entity_id always_unloads
              example_entry (hass_with fresh_coordinator) {[ "entry1" := 0 ]})
    as (h' & Hrun & Hlook & _ & Hdom & _); [reflexivity | reflexivity |].
  exists h'. split; [exact Hrun |]. split; [exact Hlook |].
  apply Hdom. apply map_eq. intros k. rewrite lookup_empty.
  destruct (decide (k = "entry1")) as [-> | Hne]; [reflexivity |].
  rewrite lookup_delete_ne by done. by apply lookup_singleton_ne.
Defined.

Lemma set_route_after_unload_witness :
  ∃ h1 h2,
    async_unload_entry example_entity_id always_unloads example_entry
      (hass_with altona_coordinator) = (Ok true, h1) ∧
    handle_set_route answering_client example_call h1 = (Ok tt, h2) ∧
    objects h2 = [altona_coordinator].
Proof.
  destruct (set_route_after_unload answering_client example_entity_id
              always_unloads example_entry example_call
              "sensor.hvv_route_entry1" (hass_with altona_coordinator)
              {[ "entry1" := 0 ]})
    as (h1 & h2 & Hrun1 & Hrun2 & _ & _ & Hobj);
    [reflexivity | reflexivity | reflexivity | reflexivity |].
  by exists h1, h2.
Defined.

Lemma async_step_user_probe_fails_witness :
  ∃ h',
    async_step_user unreachable_probe (Some example_credentials) ∅ empty_hass
    = (Ok (ShowForm "user" [(CONF_USERNAME, None); (CONF_PASSWORD, None)]
             {[ "base" := "invalid_auth" ]}),
       (∅, h')).
Proof.
  apply (async_step_user_probe_fails unreachable_probe example_credentials ∅
           "user" "secret" empty_hass empty_hass
           (Exn ClientConnectionError "Cannot connect to host" None));
    reflexivity.
Defined.

Lemma async_step_user_probe_returns_witness :
  fst (async_step_user accepting_probe (Some example_credentials) ∅ empty_hass)
  = Ok (ShowForm "home_location"
          [("home_station", None); ("home_city", None)] ∅).
Proof.
  rewrite (async_step_user_probe_returns accepting_probe example_credentials ∅
             "user" "secret" empty_hass empty_hass);
    reflexivity.
Defined.

Lemma config_flow_creates_entry_witness :
  ∃ data,
    fst (fbind (async_step_user accepting_probe (Some example_credentials))
           (fun _ => async_step_home_location (Some example_home))
           ∅ empty_hass)
    = Ok (CreateEntry "HVV Routes: Hauptbahnhof" data) ∧
    data !! "home_city" = Some "Hamburg".
Proof.
  destruct (config_flow_creates_entry accepting_probe example_credentials
              example_home ∅ "user" "secret" "Hauptbahnhof" "Hamburg"
              empty_hass empty_hass)
    as (data & Hrun & _ & _ & _ & Hhc & _);
    [reflexivity | reflexivity | reflexivity | reflexivity | reflexivity |].
  exists data. split; [by rewrite Hrun | exact Hhc].
Defined.

Lemma config_flow_entry_sets_up_witness :
  ∃ title data,
    fst (fbind (async_step_user accepting_probe (Some example_credentials))
           (fun _ => async_step_home_location (Some example_home))
           ∅ empty_hass)
    = Ok (CreateEntry title data) ∧
    fst (async_setup_entry answering_client example_entity_id
           {| entry_id := "entry1"; entry_data := data |} empty_hass)
    = Ok true.
Proof.
  apply (config_flow_entry_sets_up answering_client example_entity_id
           accepting_probe example_credentials example_home ∅
           "user" "secret" "Hauptbahnhof" "Hamburg"
           empty_hass empty_hass empty_hass "entry1");
    first [reflexivity | discriminate].
Defined.
